(** * Rail resonance transmitter: telemetry pipeline

    A shallow embedding of the Python sources of the pipeline:
    - [sensor.py]        the bounded reading buffer ([Sensor]);
    - [processor.py]     validation, statistical features, CSV payload ([Processor]);
    - [communication.py] the serial ACK probe ([Communication]);
    - [transmitter.py]   the MQTT publisher with its offline queue ([Transmitter]),
                         its callbacks and drain loop ([MqttLoop]);
    - [peripherals/adxl345_driver] the accelerometer driver ([Adxl345]);
    - [sensor.py]        initialization and the collection thread ([SensorService]);
    - [main.py]          one pass of the main loop ([MainLoop]).

    Floating-point values are Rocq's primitive binary64 floats, which follow
    IEEE-754 with round-to-nearest-even exactly as CPython and NumPy do. *)

From Stdlib Require Import Ascii String.
From Stdlib Require Import List ZArith Lia Bool Floats Sorting Permutation.
Import ListNotations.
Open Scope string_scope.
Open Scope list_scope.

(* ------------------------------------------------------------------ *)
(** ** sensor.py *)

Module Sensor.

(** [SensorReading] dataclass. *)
Record SensorReading := mkReading {
  timestamp : float;
  x : float;
  y : float;
  z : float
}.

(** [SensorReading.to_dict]. *)
Definition to_dict (r : SensorReading) : list (string * float) :=
  [("timestamp", timestamp r); ("x", x r); ("y", y r); ("z", z r)].

Section Deque.
Context {A : Type}.

(** [collections.deque(maxlen=maxlen).append(item)]: CPython appends on the
    right and then, when the length exceeds [maxlen], pops the leftmost item
    ([deque_append_internal] with [NEEDS_TRIM]). *)
Definition deque_append (maxlen : nat) (d : list A) (item : A) : list A :=
  let d' := d ++ [item] in
  if Nat.ltb maxlen (length d') then tl d' else d'.

(** A sequence of appends, in order. *)
Definition push_all (maxlen : nat) (d : list A) (items : list A) : list A :=
  fold_left (deque_append maxlen) items d.

(** The last [n] elements of a list (all of them when there are fewer). *)
Definition lastn (n : nat) (l : list A) : list A :=
  skipn (length l - n) l.

(** Python's [l[start:]] on a list, with the index normalisation of
    [PySlice_AdjustIndices]: a negative start counts from the end and is
    clamped at 0, a non-negative start is clamped at [len(l)]. *)
Definition py_slice_from (l : list A) (start : Z) : list A :=
  let n := Z.of_nat (length l) in
  let s := if Z.ltb start 0 then Z.max 0 (start + n) else Z.min start n in
  skipn (Z.to_nat s) l.

End Deque.

(** The state of a [Sensor] that the buffer methods touch: the deque
    [self._buffer] and its [maxlen] (the [buffer_size] argument). *)
Record sensor_state := mkSensor {
  buffer_size : nat;
  buffer : list SensorReading
}.

(** [Sensor.__init__]: an empty deque with [maxlen=buffer_size]. *)
Definition sensor_init (size : nat) : sensor_state := mkSensor size [].

(** One outcome of [self.driver.read_acceleration()] in [Sensor._loop]. *)
Inductive read_outcome :=
| ReadOk (ax ay az : float)   (** a tuple [(x, y, z)] *)
| ReadNone                    (** [None] *)
| ReadRaised.                 (** an exception, printed and skipped *)

(** One iteration of the body of [Sensor._loop] at wall-clock time [now]:
    a successful read is appended to the buffer under the lock. *)
Definition loop_step (s : sensor_state) (now : float) (o : read_outcome)
  : sensor_state :=
  match o with
  | ReadOk ax ay az =>
      mkSensor (buffer_size s)
        (deque_append (buffer_size s) (buffer s) (mkReading now ax ay az))
  | ReadNone | ReadRaised => s
  end.

(** [Sensor.get_latest_readings(count)]: an empty buffer gives [[]], otherwise
    [list(self._buffer)[-count:]], each reading turned into its dict. *)
Definition get_latest_readings (s : sensor_state) (count : Z)
  : list (list (string * float)) :=
  match buffer s with
  | [] => []
  | _ => map to_dict (py_slice_from (buffer s) (- count))
  end.

End Sensor.

(* ------------------------------------------------------------------ *)
(** ** communication.py *)

Module Communication.

(** Python [bytes], as the list of their byte values (ASCII characters). *)
Definition bytes := list ascii.

(** [bytes.isspace] on one byte: space, \t, \n, \r, \x0b, \x0c. *)
Definition is_space_byte (c : ascii) : bool :=
  let n := nat_of_ascii c in
  Nat.eqb n 32 || Nat.eqb n 9 || Nat.eqb n 10 || Nat.eqb n 13 ||
  Nat.eqb n 11 || Nat.eqb n 12.

Fixpoint lstrip (b : bytes) : bytes :=
  match b with
  | [] => []
  | c :: r => if is_space_byte c then lstrip r else b
  end.

(** [bytes.strip()] with no argument: leading and trailing ASCII whitespace. *)
Definition strip (b : bytes) : bytes := rev (lstrip (rev (lstrip b))).

(** [bytes.upper()]: only the ASCII letters a-z change. *)
Definition upper_byte (c : ascii) : ascii :=
  let n := nat_of_ascii c in
  if (Nat.leb 97 n && Nat.leb n 122)%bool then ascii_of_nat (n - 32) else c.

Definition upper (b : bytes) : bytes := map upper_byte b.

Definition ACK : bytes := list_ascii_of_string "ACK".
Definition OK : bytes := list_ascii_of_string "OK".

Definition bytes_eqb (a b : bytes) : bool :=
  String.eqb (string_of_list_ascii a) (string_of_list_ascii b).

(** What one attempt of the [with serial.Serial(...)] block meets: either some
    step raises (opening the port, [reset_input_buffer], [write], [flush],
    [read]), or the port answers with the bytes [incoming]. *)
Inductive serial_outcome :=
| SerialRaised
| SerialAnswer (incoming : bytes).

(** The body of one attempt: [resp = ser.read(4)], then
    [resp.strip().upper() in (b"ACK", b"OK")]. An exception counts as a failed
    attempt (it is printed and the loop goes on). *)
Definition attempt_succeeds (o : serial_outcome) : bool :=
  match o with
  | SerialRaised => false
  | SerialAnswer incoming =>
      let resp := upper (strip (firstn 4 incoming)) in
      bytes_eqb resp ACK || bytes_eqb resp OK
  end.

(** The [for attempt in range(attempt, attempt + remaining)] loop of
    [send_ack]; [channel attempt] is what the transport does at that attempt.
    The result is the boolean returned and the list of attempts at which the
    transport was opened; [time.sleep(delay)] and the prints are not
    modelled. *)
Fixpoint send_ack_loop (channel : nat -> serial_outcome)
    (remaining attempt : nat) : bool * list nat :=
  match remaining with
  | O => (false, [])
  | S rem =>
      if attempt_succeeds (channel attempt) then (true, [attempt])
      else
        let '(ok, opened) := send_ack_loop channel rem (S attempt) in
        (ok, attempt :: opened)
  end.

(** [send_ack(port, baudrate, message)] with [retry_attempts = attempts]
    ([range(1, attempts + 1)] is empty when [attempts <= 0]). *)
Definition send_ack (channel : nat -> serial_outcome) (attempts : Z)
  : bool * list nat :=
  send_ack_loop channel (Z.to_nat attempts) 1.

End Communication.

(* ------------------------------------------------------------------ *)
(** ** transmitter.py *)

Module Transmitter.

(** [queue.Queue(maxsize=maxsize)] holding the payloads, oldest first. *)
Record queue := mkQueue {
  maxsize : Z;
  items : list string
}.

(** [Queue.full()]: [0 < maxsize <= qsize()]; a [maxsize <= 0] queue is
    unbounded and never full. *)
Definition q_full (q : queue) : bool :=
  (Z.ltb 0 (maxsize q) && Z.leb (maxsize q) (Z.of_nat (length (items q))))%bool.

(** [Queue.get_nowait()]: the oldest item, or [None] for [queue.Empty]. *)
Definition q_get_nowait (q : queue) : option (string * queue) :=
  match items q with
  | [] => None
  | p :: rest => Some (p, mkQueue (maxsize q) rest)
  end.

(** [Queue.put_nowait(item)]: [None] for [queue.Full]. *)
Definition q_put_nowait (q : queue) (p : string) : option queue :=
  if q_full q then None else Some (mkQueue (maxsize q) (items q ++ [p])).

(** The fields of an [LTETransmitter] together with the parts of the paho
    client that [start] touches: whether TLS was configured ([tls_set]),
    whether the network thread runs ([loop_start]), and the number of drain
    loops ([_drain_buffer_loop] threads) launched and not yet told to stop. *)
Record lte_state := mkLte {
  port : Z;
  connected : bool;
  buffer : queue;
  tls_configured : bool;
  network_loop : bool;
  drain_loops : nat;
  stop_flag : bool
}.

(** [LTETransmitter.__init__(broker, port, topic, max_buffer_size)]. *)
Definition lte_init (port : Z) (max_buffer_size : Z) : lte_state :=
  mkLte port false (mkQueue max_buffer_size []) false false 0 false.

Definition set_buffer (st : lte_state) (q : queue) : lte_state :=
  mkLte (port st) (connected st) q (tls_configured st) (network_loop st)
    (drain_loops st) (stop_flag st).

(** [LTETransmitter.publish(payload)]; [publish_now payload] is the result of
    [self._publish_now(payload)], which catches its own exceptions. *)
Definition publish (publish_now : string -> bool) (st : lte_state)
    (payload : string) : bool * lte_state :=
  if connected st && publish_now payload then (true, st)
  else
    (* if self._buffer.full(): self._buffer.get_nowait() (Empty is ignored) *)
    let q1 :=
      if q_full (buffer st) then
        match q_get_nowait (buffer st) with
        | Some (_, q') => q'
        | None => buffer st
        end
      else buffer st in
    match q_put_nowait q1 payload with
    | Some q2 => (false, set_buffer st q2)
    | None => (false, set_buffer st q1)
    end.

(** [LTETransmitter.start()]. The calls into paho behave as paho does:
    [tls_set] raises [ValueError] once TLS is already configured;
    [connect_async] raises [ValueError] for a port [<= 0];
    [loop_start] returns an error code, and starts nothing, when the network
    thread already runs. An exception skips the rest of the [try] block. *)
Definition start (st : lte_state) : lte_state :=
  let secure := Z.eqb (port st) 8883 in
  if (secure && tls_configured st)%bool then st
  else
    let tls := (tls_configured st || secure)%bool in
    if Z.leb (port st) 0 then
      mkLte (port st) (connected st) (buffer st) tls (network_loop st)
        (drain_loops st) (stop_flag st)
    else
      (* loop_start(); self._stop = False; a new drain thread is started *)
      mkLte (port st) (connected st) (buffer st) tls true
        (S (drain_loops st)) false.

End Transmitter.

(* ------------------------------------------------------------------ *)
(** ** Python's [str] of [int] and [float] (CPython [long_to_decimal_string],
    [float_repr] / [format_float_short] in mode ['r']) *)

Module PyRepr.

Local Open Scope Z_scope.

(** The decimal digits of a non-negative integer, most significant first;
    [fuel] bounds the digit count by the bit count. *)
Definition digit_char (d : Z) : ascii := ascii_of_nat (48 + Z.to_nat d).

Fixpoint digits_fuel (fuel : nat) (n : Z) (acc : string) : string :=
  match fuel with
  | O => acc
  | S f =>
      let acc' := String (digit_char (n mod 10)) acc in
      if (n / 10 =? 0)%Z then acc' else digits_fuel f (n / 10) acc'
  end.

Definition nat_digits (n : Z) : string :=
  digits_fuel (S (Z.to_nat (Z.log2 n))) n "".

(** [str(n)] of a Python [int]. *)
Definition int_str (n : Z) : string :=
  if (n <? 0)%Z then ("-" ++ nat_digits (- n))%string else nat_digits n.

Fixpoint zeros (n : nat) : string :=
  match n with O => "" | S k => String "0" (zeros k) end.

(** [10 ^ e <= n / d]. *)
Definition ge_pow10 (n d e : Z) : bool :=
  if (0 <=? e)%Z then (10 ^ e * d <=? n)%Z else (d <=? n * 10 ^ (- e))%Z.

Fixpoint fix_exp10 (fuel : nat) (n d e : Z) : Z :=
  match fuel with
  | O => e
  | S f =>
      if negb (ge_pow10 n d e) then fix_exp10 f n d (e - 1)
      else if ge_pow10 n d (e + 1) then fix_exp10 f n d (e + 1)
      else e
  end.

(** The [E] with [10 ^ E <= n / d < 10 ^ (E + 1)], from the estimate
    [log10 2 ~ 0.30103] and a correction of a few steps. *)
Definition decimal_exponent (n d : Z) : Z :=
  fix_exp10 8 n d (((Z.log2 n - Z.log2 d) * 30103) / 100000).

(** The binary64 value nearest to [c * 10 ^ k] ([c > 0]), rounded to nearest
    even as [float(str)] does. For [k < 0] the quotient is taken with 1100
    fractional bits and a sticky bit, far below half an ulp of any binary64. *)
Definition nearest_double (c k : Z) : spec_float :=
  if (0 <=? k)%Z then SpecFloat.binary_normalize 53 1024 (c * 10 ^ k) 0 false
  else
    let t := 1100%Z in
    let q := (c * 2 ^ t) / 10 ^ (- k) in
    let r := (c * 2 ^ t) mod 10 ^ (- k) in
    SpecFloat.binary_normalize 53 1024 (2 * q + (if (r =? 0)%Z then 0 else 1))
      (- (t + 1)) false.

Definition sf_eqb (a b : spec_float) : bool :=
  match a, b with
  | S754_finite s m e, S754_finite s' m' e' =>
      Bool.eqb s s' && Pos.eqb m m' && Z.eqb e e'
  | _, _ => false
  end.

(** The [p]-digit decimals next to [m * 2 ^ e] (given as [n / d]): the one of
    them that reads back as the same double, the nearer one when both do
    (ties to an even last digit, as [_Py_dg_dtoa] rounds). *)
Definition digits_at (m : positive) (e : Z) (n d p : Z) : option (Z * Z) :=
  let k := (decimal_exponent n d - p + 1)%Z in
  let '(num, den) :=
    if (0 <=? k)%Z then (n, d * 10 ^ k)%Z else (n * 10 ^ (- k), d)%Z in
  let lo := num / den in
  let rem := num mod den in
  let ok c := sf_eqb (nearest_double c k) (S754_finite false m e) in
  if (rem =? 0)%Z then (if ok lo then Some (lo, k) else None)
  else
    match ok lo, ok (lo + 1)%Z with
    | true, true =>
        match Z.compare (2 * rem) den with
        | Lt => Some (lo, k)
        | Gt => Some (lo + 1, k)%Z
        | Eq => if Z.even lo then Some (lo, k) else Some (lo + 1, k)%Z
        end
    | true, false => Some (lo, k)
    | false, true => Some (lo + 1, k)%Z
    | false, false => None
    end.

Fixpoint strip_zeros (fuel : nat) (c k : Z) : Z * Z :=
  match fuel with
  | O => (c, k)
  | S f => if (c mod 10 =? 0)%Z then strip_zeros f (c / 10) (k + 1) else (c, k)
  end.

Fixpoint first_digits (m : positive) (e : Z) (n d : Z) (ps : list Z) : Z * Z :=
  match ps with
  | [] => (0, 0)%Z
  | [p] => match digits_at m e n d p with Some r => r | None => (n / d, 0)%Z end
  | p :: rest =>
      match digits_at m e n d p with Some r => r | None => first_digits m e n d rest end
  end.

(** [_Py_dg_dtoa(x, 0, ...)]: the shortest digit string [c] (no trailing
    zero) with [c * 10 ^ k] reading back as [m * 2 ^ e]; 17 digits always do. *)
Definition shortest_digits (m : positive) (e : Z) : Z * Z :=
  let '(n, d) := if (0 <=? e)%Z then (Zpos m * 2 ^ e, 1)%Z else (Zpos m, 2 ^ (- e))%Z in
  let '(c, k) := first_digits m e n d (map Z.of_nat (seq 1 17)) in
  strip_zeros 20 c k.

(** [format_float_short] for the code ['r'] with [Py_DTSF_ADD_DOT_0]: the
    digits [ds] with the decimal point after [decpt] of them; exponent
    notation when [decpt <= -4] or [decpt > 16], the exponent signed and of
    at least two digits. *)
Definition format_r (ds : string) (decpt : Z) : string :=
  let nd := Z.of_nat (String.length ds) in
  if (decpt <=? -4)%Z || (16 <? decpt)%Z then
    let exp := (decpt - 1)%Z in
    let es := nat_digits (Z.abs exp) in
    (substring 0 1 ds ++
     (if (1 <? nd)%Z then "." ++ substring 1 (String.length ds - 1) ds else "") ++
     "e" ++ (if (exp <? 0)%Z then "-" else "+") ++
     (if (String.length es <? 2)%nat then "0" ++ es else es))%string
  else if (decpt <=? 0)%Z then ("0." ++ zeros (Z.to_nat (- decpt)) ++ ds)%string
  else if (nd <=? decpt)%Z then (ds ++ zeros (Z.to_nat (decpt - nd)) ++ ".0")%string
  else (substring 0 (Z.to_nat decpt) ds ++ "." ++
        substring (Z.to_nat decpt) (String.length ds - Z.to_nat decpt) ds)%string.

(** [repr(x)] = [str(x)] of a Python [float]. *)
Definition float_repr (x : float) : string :=
  match Prim2SF x with
  | S754_zero s => if s then "-0.0" else "0.0"
  | S754_infinity s => if s then "-inf" else "inf"
  | S754_nan => "nan"
  | S754_finite s m e =>
      let '(c, k) := shortest_digits m e in
      let ds := nat_digits c in
      ((if s then "-" else "") ++
       format_r ds (k + Z.of_nat (String.length ds)))%string
  end.

End PyRepr.

(* ------------------------------------------------------------------ *)
(** ** processor.py *)

Module Processor.

Local Open Scope float_scope.

(** A value of a reading dict as [pd.to_numeric(..., errors="coerce")] sees
    it: a number (or a string pandas parses as one), or anything else. *)
Inductive cell :=
| Num (f : float)
| NonNumeric.

(** A reading dict ([Dict]): its keys are distinct. *)
Definition reading := list (string * cell).

(** A value stored in the features dict: a Python [float] or [int]. *)
Inductive pyval :=
| PyFloat (f : float)
| PyInt (n : Z).

Definition features := list (string * pyval).

(** The exceptions [process_batch] can raise. *)
Inductive py_exc :=
| KeyError (key : string)
| TypeError
| ValueError (msg : string).

Inductive result (A : Type) :=
| Ok (a : A)
| Err (e : py_exc).
Arguments Ok {A} a.
Arguments Err {A} e.

Definition REQUIRED_COLUMNS : list string := ["timestamp"; "x"; "y"; "z"]%string.
Definition MIN_SAMPLES_REQUIRED : nat := 5.
(** [EPS = 1e-12], the binary64 value Python's literal denotes. *)
Definition EPS : float := 0x1.19799812dea11p-40.

(** Python dict assignment [d[k] = v]: an existing key keeps its position. *)
Fixpoint dict_set {V : Type} (d : list (string * V)) (k : string) (v : V)
  : list (string * V) :=
  match d with
  | [] => [(k, v)]
  | (k', v') :: rest =>
      if String.eqb k k' then (k, v) :: rest else (k', v') :: dict_set rest k v
  end.

(** [d.update(e)]. *)
Definition dict_update {V : Type} (d e : list (string * V)) : list (string * V) :=
  fold_left (fun acc kv => dict_set acc (fst kv) (snd kv)) e d.

Fixpoint dict_get {V : Type} (d : list (string * V)) (k : string) : option V :=
  match d with
  | [] => None
  | (k', v) :: rest => if String.eqb k k' then Some v else dict_get rest k
  end.

(** *** NumPy and pandas reductions on float64 arrays *)

Definition fsum_seq (acc : float) (l : list float) : float := fold_left add l acc.

Fixpoint lanes_add (r c : list float) : list float :=
  match r, c with
  | a :: r', b :: c' => (a + b) :: lanes_add r' c'
  | _, _ => r
  end.

Fixpoint chunks8 (fuel : nat) (l : list float) : list (list float) :=
  match fuel, l with
  | O, _ | _, [] => []
  | S f, _ => firstn 8 l :: chunks8 f (skipn 8 l)
  end.

(** The unrolled case of NumPy's [pairwise_sum] for [8 <= n <= 128]: eight
    running sums over the blocks of eight, combined as a tree, then the tail
    added in order. *)
Definition pairwise_block (l : list float) : float :=
  let n := length l in
  let m := (n - Nat.modulo n 8)%nat in
  let r := fold_left lanes_add (chunks8 n (skipn 8 (firstn m l))) (firstn 8 l) in
  let r_ j := nth j r 0 in
  let res := ((r_ 0%nat + r_ 1%nat) + (r_ 2%nat + r_ 3%nat)) +
             ((r_ 4%nat + r_ 5%nat) + (r_ 6%nat + r_ 7%nat)) in
  fsum_seq res (skipn m l).

(** NumPy's [DOUBLE_pairwise_sum] ([loops_utils.h.src]): sequential below 8
    elements, unrolled up to [PW_BLOCKSIZE = 128], otherwise split at
    [n/2] rounded down to a multiple of 8. [fuel] is the length. *)
Fixpoint pairwise_sum (fuel : nat) (l : list float) : float :=
  match fuel with
  | O => 0
  | S f =>
      let n := length l in
      if Nat.ltb n 8 then fsum_seq 0 l
      else if Nat.leb n 128 then pairwise_block l
      else
        let n2 := (Nat.div n 2 - Nat.modulo (Nat.div n 2) 8)%nat in
        pairwise_sum f (firstn n2 l) + pairwise_sum f (skipn n2 l)
  end.

(** [np.add.reduce] of a float64 array: the output starts at the identity
    [0.0] and the inner loop adds the pairwise sum of the elements. *)
Definition np_sum (l : list float) : float := 0 + pairwise_sum (length l) l.

Definition float_of_nat (n : nat) : float := of_uint63 (Uint63.of_Z (Z.of_nat n)).

(** [np.mean(arr)]: the sum divided by the element count. *)
Definition np_mean (l : list float) : float := np_sum l / float_of_nat (length l).

(** [Series.mean()] ([nanops.nanmean], no NaN left after [fillna(0)]). *)
Definition series_mean (l : list float) : float := np_sum l / float_of_nat (length l).

(** [Series.std()] ([nanops.nanstd] = [sqrt] of [nanvar] with [ddof = 1]):
    [avg = sum / count], [sqr = (avg - values) ** 2], [sqr.sum() / (count - 1)];
    NaN when [count <= 1]. *)
Definition series_std (l : list float) : float :=
  let n := length l in
  if Nat.leb n 1 then nan
  else
    let avg := np_sum l / float_of_nat n in
    let sqr := map (fun v => (avg - v) * (avg - v)) l in
    sqrt (np_sum sqr / float_of_nat (n - 1)%nat).

(** [Series.min()] / [Series.max()]: NumPy's [minimum]/[maximum] reduction,
    [io1 = (io1 < in2 || isnan(io1)) ? io1 : in2]. *)
Definition series_min (l : list float) : float :=
  match l with
  | [] => nan
  | a :: r => fold_left (fun acc v => if (acc <? v) || is_nan acc then acc else v) r a
  end.

Definition series_max (l : list float) : float :=
  match l with
  | [] => nan
  | a :: r => fold_left (fun acc v => if (v <? acc) || is_nan acc then acc else v) r a
  end.

(** Python's [max(a, b)]: [b] only when [b > a]. *)
Definition py_max (a b : float) : float := if a <? b then b else a.

(** [rms = float(np.sqrt(np.mean(arr * arr) + EPS))]. *)
Definition rms_of (arr : list float) : float :=
  sqrt (np_mean (map (fun v => v * v) arr) + EPS).

(** The statistics of one axis, in the order [_compute_statistical] stores them. *)
Definition axis_stats (prefix : string) (series : list float) : features :=
  let mx := series_max series in
  let mn := series_min series in
  let rms := rms_of series in
  [(("mean_" ++ prefix)%string, PyFloat (series_mean series));
   (("std_" ++ prefix)%string, PyFloat (series_std series));
   (("min_" ++ prefix)%string, PyFloat mn);
   (("max_" ++ prefix)%string, PyFloat mx);
   (("rms_" ++ prefix)%string, PyFloat rms);
   (("p2p_" ++ prefix)%string, PyFloat (mx - mn));
   (("crest_" ++ prefix)%string,
      PyFloat (if 0 <? rms then py_max (abs mx) (abs mn) / rms else 0))].

(** [_compute_statistical(df)] on the coerced columns [x], [y], [z]. *)
Definition compute_statistical (xs ys zs : list float) : features :=
  let feats := dict_update [] (axis_stats "X" xs) in
  let feats := dict_update feats (axis_stats "Y" ys) in
  let feats := dict_update feats (axis_stats "Z" zs) in
  dict_set feats "sample_count" (PyInt (Z.of_nat (length xs))).

(** *** The frame built by [process_batch] *)

Definition add_label (labels : list string) (k : string) : list string :=
  if existsb (String.eqb k) labels then labels else labels ++ [k].

(** The column labels of [pd.DataFrame(readings)]: the keys of the dicts, in
    order of first appearance. *)
Definition frame_labels (rs : list reading) : list string :=
  fold_left (fun acc (r : reading) => fold_left add_label (map fst r) acc) rs [].

(** [df.rename(columns={"x_axis": "x", "y_axis": "y", "z_axis": "z"})]. *)
Definition rename_label (k : string) : string :=
  if String.eqb k "x_axis" then "x"
  else if String.eqb k "y_axis" then "y"
  else if String.eqb k "z_axis" then "z"
  else k.

(** [df.columns] after the rename; the rename may create duplicate labels. *)
Definition frame_columns (rs : list reading) : list string :=
  map rename_label (frame_labels rs).

(** [pd.to_numeric(v, errors="coerce")] then [.fillna(0)] on one cell; a key
    absent from a reading is NaN in the frame. *)
Definition coerce (o : option cell) : float :=
  match o with
  | Some (Num f) => if is_nan f then 0 else f
  | _ => 0
  end.

(** [df[c] = pd.to_numeric(df[c], errors="coerce").fillna(0)]: [df[c]] raises
    [KeyError] when no column is labelled [c]; when several are, it is a
    DataFrame and [pd.to_numeric] raises [TypeError]. *)
Definition coerce_column (rs : list reading) (c : string) : result (list float) :=
  match filter (fun k => String.eqb (rename_label k) c) (frame_labels rs) with
  | [] => Err (KeyError c)
  | [k] => Ok (map (fun r => coerce (dict_get r k)) rs)
  | _ => Err TypeError
  end.

(** Python's [repr] of a list of strings, as in [f"Missing columns: {missing}"]. *)
Definition repr_str_list (l : list string) : string :=
  ("[" ++ String.concat ", " (map (fun c => "'" ++ c ++ "'") l) ++ "]")%string.

(** [_validate(df)]: [None] when it returns, [Some e] when it raises [e]. *)
Definition validate (columns : list string) (nrows : nat) : option py_exc :=
  let missing :=
    filter (fun c => negb (existsb (String.eqb c) columns)) REQUIRED_COLUMNS in
  match missing with
  | _ :: _ => Some (ValueError ("Missing columns: " ++ repr_str_list missing)%string)
  | [] =>
      if Nat.ltb nrows MIN_SAMPLES_REQUIRED
      then Some (ValueError "Insufficient data for processing")
      else None
  end.

(** The [timestamp] column for [min()]/[max()] (skipping NaN); a non-numeric
    timestamp makes the reduction raise. *)
Fixpoint timestamp_values (cells : list (option cell)) : result (list float) :=
  match cells with
  | [] => Ok []
  | o :: rest =>
      match timestamp_values rest with
      | Err e => Err e
      | Ok l =>
          match o with
          | None => Ok l
          | Some (Num f) => if is_nan f then Ok l else Ok (f :: l)
          | Some NonNumeric => Err TypeError
          end
      end
  end.

Section Batch.

(** [_compute_frequency(df, sampling_rate_hz)] (Hann window, [rfft]) is not
    embedded: it is a parameter, called on the coerced columns. *)
Variable compute_frequency :
  list float -> list float -> list float -> float -> list (string * float).

(** [process_batch(readings, sampling_rate_hz)]. *)
Definition process_batch (readings : list reading) (sampling_rate_hz : float)
  : result features :=
  match readings with
  | [] => Ok []
  | _ =>
    match coerce_column readings "x" with
    | Err e => Err e
    | Ok xs =>
    match coerce_column readings "y" with
    | Err e => Err e
    | Ok ys =>
    match coerce_column readings "z" with
    | Err e => Err e
    | Ok zs =>
    match validate (frame_columns readings) (length readings) with
    | Some e => Err e
    | None =>
    match timestamp_values (map (fun r => dict_get r "timestamp") readings) with
    | Err e => Err e
    | Ok ts =>
      let tmin := match ts with [] => nan | _ => series_min ts end in
      let tmax := match ts with [] => nan | _ => series_max ts end in
      let feats := dict_update [] (compute_statistical xs ys zs) in
      let feats := dict_update feats
        (map (fun kv => (fst kv, PyFloat (snd kv)))
           (compute_frequency xs ys zs sampling_rate_hz)) in
      let feats := dict_set feats "timestamp_start" (PyFloat tmin) in
      let feats := dict_set feats "timestamp_end" (PyFloat tmax) in
      Ok (dict_set feats "duration" (PyFloat (tmax - tmin)))
    end end end end end
  end.

End Batch.

(** *** [format_csv] *)

(** [str(v)] of a value of the features dict. *)
Definition py_str (v : pyval) : string :=
  match v with
  | PyFloat f => PyRepr.float_repr f
  | PyInt n => PyRepr.int_str n
  end.

(** [sorted(keys)]: Python orders strings by code points, [String.leb] orders
    ASCII strings by their bytes, the same order. The keys of a dict are
    distinct, so the stability of Python's sort plays no role. *)
Fixpoint insert_key (k : string) (l : list string) : list string :=
  match l with
  | [] => [k]
  | h :: t => if String.leb k h then k :: h :: t else h :: insert_key k t
  end.

Definition sorted_keys (keys : list string) : list string :=
  fold_right insert_key [] keys.

Definition newline : ascii := "010"%char.

(** [str(features[k])]; [k] is always a key of [features] here. *)
Definition value_str (features : features) (k : string) : string :=
  match dict_get features k with
  | Some v => py_str v
  | None => ""
  end.

(** [format_csv(features)]. *)
Definition format_csv (features : features) : string :=
  match features with
  | [] => ""
  | _ =>
      let keys := sorted_keys (map fst features) in
      let header := String.concat "," keys in
      let row := String.concat "," (map (value_str features) keys) in
      (header ++ String newline row)%string
  end.

(** The reader of the wire payload as the spec describes it (the repository
    has none): split the payload into lines, expect a header and one row,
    split both at the commas and pair the fields up. *)
Fixpoint split_on (sep : ascii) (s : string) : list string :=
  match s with
  | EmptyString => [""]
  | String c rest =>
      let parts := split_on sep rest in
      if Ascii.eqb c sep then "" :: parts
      else match parts with
           | [] => [String c ""]
           | w :: ws => String c w :: ws
           end
  end.

Definition spec_parse_wire_payload (payload : string)
  : option (list (string * string)) :=
  match split_on newline payload with
  | [header; row] =>
      let ks := split_on "," header in
      let vs := split_on "," row in
      if Nat.eqb (length ks) (length vs) then Some (combine ks vs) else None
  | _ => None
  end.

(** Whether [c] occurs in [s]. *)
Fixpoint has_char (c : ascii) (s : string) : bool :=
  match s with
  | EmptyString => false
  | String d rest => Ascii.eqb d c || has_char c rest
  end.

(** A field that neither the comma nor the newline splits. *)
Definition csv_safe (s : string) : bool :=
  negb (has_char "," s) && negb (has_char newline s).

(** The two separators of the payload. *)
Definition sep_char (c : ascii) : Prop := c = ","%char \/ c = newline.

End Processor.

(* ------------------------------------------------------------------ *)
(** ** Sign classes of binary64 values

    Predicates on the [spec_float] reading of a primitive float, used to
    follow the sign of [rms] through NumPy's reductions. *)

Module Binary64.

(** [+0], [+inf] or a positive finite value. *)
Definition nonneg_sf (x : spec_float) : Prop :=
  match x with
  | S754_zero false | S754_infinity false | S754_finite false _ _ => True
  | _ => False
  end.

(** [+inf] or a positive finite value. *)
Definition pos_sf (x : spec_float) : Prop :=
  match x with
  | S754_infinity false | S754_finite false _ _ => True
  | _ => False
  end.

(** A positive finite value. *)
Definition fin_pos_sf (x : spec_float) : Prop :=
  match x with
  | S754_finite false _ _ => True
  | _ => False
  end.

Definition fnonneg (x : float) : Prop := nonneg_sf (Prim2SF x).

End Binary64.

(* ------------------------------------------------------------------ *)
(** ** peripherals/adxl345_driver: the accelerometer driver [Sensor] calls *)

Module Adxl345.

Local Open Scope Z_scope.

(** [constants.py]. *)
Definition REG_DEVID : Z := 0x00.
Definition REG_POWER_CTL : Z := 0x2D.
Definition REG_DATA_FORMAT : Z := 0x31.
Definition REG_BW_RATE : Z := 0x2C.
Definition RANGE_16G : Z := 0x03.
Definition RATE_100HZ : Z := 0x0A.
Definition RATE_50HZ : Z := 0x09.
Definition RATE_25HZ : Z := 0x08.
Definition RATE_20HZ : Z := 0x07.
Definition MEASURE_BIT : Z := 0x08.
Definition FULL_RES_BIT : Z := 0x08.
Definition SCALE_FACTOR_16G : float := 32%float.

(** [int.from_bytes(bs, byteorder='little', signed=True)] on a list of ints:
    [ValueError] ([None]) unless every item is in [range(0, 256)]; the empty
    list gives [0]. *)
Definition int_from_bytes_le_signed (bs : list Z) : option Z :=
  if forallb (fun b => (0 <=? b) && (b <? 256)) bs then
    match bs with
    | [] => Some 0
    | _ =>
        let u := fold_right (fun b acc => b + 256 * acc) 0 bs in
        let w := 8 * Z.of_nat (length bs) in
        Some (if 2 ^ (w - 1) <=? u then u - 2 ^ w else u)
    end
  else None.

(** What the I2C bus does for the calls of [initialize]: the value
    [read_byte_data] returns for [REG_DEVID] ([None] when it raises) and, per
    register, whether [write_byte_data] succeeds (it raises otherwise). *)
Record init_bus := mkInitBus {
  devid : option Z;
  write_ok : Z -> bool
}.

(** The [write_byte_data] calls in order; the first that raises ends them. *)
Fixpoint write_regs (ok : Z -> bool) (ws : list (Z * Z)) : bool * list (Z * Z) :=
  match ws with
  | [] => (true, [])
  | (reg, v) :: rest =>
      if ok reg then
        let '(res, done) := write_regs ok rest in (res, (reg, v) :: done)
      else (false, [])
  end.

(** [ADXL345Driver.initialize(range_setting, rate)]: the result (also the new
    [is_initialized]) and the register writes that reached the device, in
    order. Every exception is caught and gives [False]. *)
Definition initialize (bus : init_bus) (range_setting rate : Z) : bool * list (Z * Z) :=
  match devid bus with
  | None => (false, [])
  | Some device_id =>
      if negb (device_id =? 0xE5) then (false, [])
      else
        write_regs (write_ok bus)
          [(REG_DATA_FORMAT, Z.lor FULL_RES_BIT range_setting);
           (REG_BW_RATE, rate);
           (REG_POWER_CTL, MEASURE_BIT)]
  end.

(** [ADXL345Driver.read_raw_data()]: [None] when the driver is not
    initialized, when [read_i2c_block_data] raises ([block = None]) or when a
    conversion raises; otherwise the three little-endian signed 16-bit values
    of [data[0:2]], [data[2:4]] and [data[4:6]]. *)
Definition read_raw_data (is_initialized : bool) (block : option (list Z))
  : option (Z * Z * Z) :=
  if negb is_initialized then None
  else
    match block with
    | None => None
    | Some data =>
        match int_from_bytes_le_signed (firstn 2 data),
              int_from_bytes_le_signed (firstn 2 (skipn 2 data)),
              int_from_bytes_le_signed (firstn 2 (skipn 4 data)) with
        | Some x, Some y, Some z => Some (x, y, z)
        | _, _, _ => None
        end
    end.

(** A Python [int] as the float it becomes in [int / float]
    ([PyLong_AsDouble], correctly rounded, to nearest even); the values here
    have 16 bits, far from the [OverflowError] bound. *)
Definition int_to_float (n : Z) : float :=
  SF2Prim (SpecFloat.binary_normalize prec emax n 0 false).

(** [ADXL345Driver.read_acceleration()]: each raw value divided by
    [SCALE_FACTOR_16G]. *)
Definition read_acceleration (is_initialized : bool) (block : option (list Z))
  : option (float * float * float) :=
  match read_raw_data is_initialized block with
  | None => None
  | Some (x, y, z) =>
      Some (int_to_float x / SCALE_FACTOR_16G, int_to_float y / SCALE_FACTOR_16G,
            int_to_float z / SCALE_FACTOR_16G)%float
  end.

End Adxl345.

(* ------------------------------------------------------------------ *)
(** ** sensor.py: the rest of [Sensor] *)

Module SensorService.

Local Open Scope Z_scope.

(** [Sensor._map_rate(rate)]: [rate_map.get(rate, const.RATE_20HZ)]. *)
Definition rate_map : list (Z * Z) :=
  [(100, Adxl345.RATE_100HZ); (50, Adxl345.RATE_50HZ);
   (25, Adxl345.RATE_25HZ); (20, Adxl345.RATE_20HZ)].

Definition map_rate (rate : Z) : Z :=
  match find (fun kv => fst kv =? rate) rate_map with
  | Some kv => snd kv
  | None => Adxl345.RATE_20HZ
  end.

(** [Sensor.initialize()] with [sampling_rate_hz = rate]. *)
Definition initialize (bus : Adxl345.init_bus) (rate : Z) : bool * list (Z * Z) :=
  Adxl345.initialize bus Adxl345.RANGE_16G (map_rate rate).

(** The flag [self._running] and the number of [_loop] threads started. *)
Record sensor_ctl := mkCtl {
  running : bool;
  loop_threads : nat
}.

Definition ctl_init : sensor_ctl := mkCtl false 0.

(** [Sensor.start_collection()]. *)
Definition start_collection (c : sensor_ctl) : bool * sensor_ctl :=
  if running c then (false, c) else (true, mkCtl true (S (loop_threads c))).

(** [Sensor.shutdown()]: the flag is cleared (the [join] waits at most one
    second and does not change the state). *)
Definition shutdown (c : sensor_ctl) : sensor_ctl := mkCtl false (loop_threads c).

(** [Sensor.get_status()]: [running] and [buffer_size = len(self._buffer)]. *)
Definition get_status (c : sensor_ctl) (s : Sensor.sensor_state) : bool * nat :=
  (running c, length (Sensor.buffer s)).

(** The outcome of [self.driver.read_acceleration()] in one pass of [_loop];
    the driver catches its own bus errors, so it is a tuple or [None]. *)
Definition driver_outcome (is_initialized : bool) (block : option (list Z))
  : Sensor.read_outcome :=
  match Adxl345.read_acceleration is_initialized block with
  | Some (ax, ay, az) => Sensor.ReadOk ax ay az
  | None => Sensor.ReadNone
  end.

(** The thread [Sensor._loop()] for the passes [events] it makes (the
    [time.time()] and the bus answer of each), with [sampling_rate_hz = rate].
    [1.0 / float(0)] raises [ZeroDivisionError] before the first pass; a
    negative interval makes [time.sleep] raise [ValueError] at the end of the
    first pass, outside the [try]. Both exceptions end the thread. *)
Definition loop_run (rate : Z) (is_initialized : bool) (s : Sensor.sensor_state)
    (events : list (float * option (list Z))) : Sensor.sensor_state :=
  let step s ev := Sensor.loop_step s (fst ev) (driver_outcome is_initialized (snd ev)) in
  if rate =? 0 then s
  else if rate <? 0 then
    match events with
    | [] => s
    | ev :: _ => step s ev
    end
  else fold_left step events s.

End SensorService.

(* ------------------------------------------------------------------ *)
(** ** transmitter.py: callbacks and the drain loop *)

Module MqttLoop.

Import Transmitter.

(** [_on_connect(client, userdata, flags, rc)]: [self._connected = (rc == 0)]. *)
Definition on_connect (rc : Z) (st : lte_state) : lte_state :=
  mkLte (port st) (Z.eqb rc 0) (buffer st) (tls_configured st) (network_loop st)
    (drain_loops st) (stop_flag st).

(** [_on_disconnect(client, userdata, rc)]. *)
Definition on_disconnect (st : lte_state) : lte_state :=
  mkLte (port st) false (buffer st) (tls_configured st) (network_loop st)
    (drain_loops st) (stop_flag st).

(** [Queue.empty()]. *)
Definition q_empty (q : queue) : bool :=
  match items q with [] => true | _ => false end.

(** One pass of the [while not self._stop] loop of [_drain_buffer_loop]: when
    connected with a non-empty queue the oldest payload is taken with
    [get_nowait] and handed to [_publish_now], whose result is not looked at;
    otherwise the pass sleeps. The second component is the payload handed. *)
Definition drain_pass (st : lte_state) : lte_state * option string :=
  if connected st && negb (q_empty (buffer st)) then
    match q_get_nowait (buffer st) with
    | Some (p, q') => (set_buffer st q', Some p)
    | None => (st, None)
    end
  else (st, None).

(** What happens to a transmitter: a caller's [publish(payload)], a pass of
    the drain loop, paho's [on_connect] with a code, or [on_disconnect]. *)
Inductive event :=
| EvPublish (payload : string)
| EvDrain
| EvConnect (rc : Z)
| EvDisconnect.

(** The transmitter under a sequence of events, [_publish_now] answering
    [publish_now]; the second component lists the payloads handed to
    [_publish_now] (by [publish] when connected, or by the drain loop). *)
Fixpoint run (publish_now : string -> bool) (st : lte_state) (evs : list event)
  : lte_state * list string :=
  match evs with
  | [] => (st, [])
  | EvPublish p :: rest =>
      let handed := if connected st then [p] else [] in
      let '(st', out) := run publish_now (snd (publish publish_now st p)) rest in
      (st', handed ++ out)
  | EvDrain :: rest =>
      let '(st1, h) := drain_pass st in
      let '(st', out) := run publish_now st1 rest in
      (st', match h with Some p => p :: out | None => out end)
  | EvConnect rc :: rest => run publish_now (on_connect rc st) rest
  | EvDisconnect :: rest => run publish_now (on_disconnect st) rest
  end.

(** [get_buffer_status()]: [buffer_size = qsize()] and [max_buffer_size]. *)
Definition get_buffer_status (st : lte_state) : Z * Z :=
  (Z.of_nat (length (items (buffer st))), maxsize (buffer st)).

End MqttLoop.

(* ------------------------------------------------------------------ *)
(** ** main.py: one pass of the main loop *)

Module MainLoop.

Local Open Scope Z_scope.


(** The probe message [b"AT\r"]. *)
Definition AT_PROBE : Communication.bytes := ["A"; "T"; "013"]%char.



(** The sending part of a pass for the [features] of a batch: nothing when
    they are empty; otherwise [ack], the result of [send_ack(...)], decides
    whether [lte.publish(format_csv(features))] is called. The first
    component is what [publish] returned, when it was called. *)
Definition main_transmit (ack : bool) (publish_now : string -> bool)
    (st : Transmitter.lte_state) (features : Processor.features)
  : option bool * Transmitter.lte_state :=
  match features with
  | [] => (None, st)
  | _ =>
      if ack then
        let '(ok, st') := Transmitter.publish publish_now st (Processor.format_csv features) in
        (Some ok, st')
      else (None, st)
  end.

End MainLoop.

(* ------------------------------------------------------------------ *)
(** ** Exact values of floats, and checks over integer ranges *)

Module FloatValue.

Local Open Scope Z_scope.

(** Whether the binary64 value [f] is exactly [n * 2 ^ k]. *)
Definition dyadic_eqb (f : spec_float) (n k : Z) : bool :=
  match f with
  | S754_zero _ => n =? 0
  | S754_finite s m e =>
      let sm := SpecFloat.cond_Zopp s (Zpos m) in
      if e <=? k then sm =? n * 2 ^ (k - e) else sm * 2 ^ (e - k) =? n
  | _ => false
  end.

(** [f lo && f (lo + 1) && ... && f (lo + n - 1)]. *)
Fixpoint all_from (f : Z -> bool) (lo : Z) (n : nat) : bool :=
  match n with
  | O => true
  | S k => f lo && all_from f (lo + 1) k
  end.

End FloatValue.

(* ================================================================== *)
(** * Proofs *)

(* ------------------------------------------------------------------ *)
(** ** The sensor buffer *)

Section DequeFacts.
Context {A : Type}.

Lemma lastn_length (n : nat) (l : list A) :
  length (Sensor.lastn n l) = Nat.min n (length l).
Proof. unfold Sensor.lastn. rewrite length_skipn. lia. Qed.

Lemma lastn_snoc (n : nat) (l : list A) (item : A) :
  Sensor.lastn n (Sensor.lastn n l ++ [item]) = Sensor.lastn n (l ++ [item]).
Proof.
  unfold Sensor.lastn at 2.
  replace (skipn (length l - n) l ++ [item])
    with (skipn (length l - n) (l ++ [item]))
    by (rewrite skipn_app; replace (length l - n - length l) with 0 by lia;
        reflexivity).
  unfold Sensor.lastn. rewrite skipn_skipn, length_skipn, !length_app. simpl.
  f_equal. lia.
Qed.

Lemma deque_append_lastn (n : nat) (d : list A) (item : A) :
  length d <= n ->
  Sensor.deque_append n d item = Sensor.lastn n (d ++ [item]).
Proof.
  intros Hd. unfold Sensor.deque_append, Sensor.lastn.
  rewrite length_app. simpl.
  destruct (Nat.ltb_spec n (length d + 1)) as [Hlt | Hge].
  - replace (length d + 1 - n) with 1 by lia.
    destruct (d ++ [item]); reflexivity.
  - replace (length d + 1 - n) with 0 by lia. reflexivity.
Qed.

Lemma push_all_snoc (n : nat) (d : list A) (l : list A) (item : A) :
  Sensor.push_all n d (l ++ [item]) =
  Sensor.deque_append n (Sensor.push_all n d l) item.
Proof. unfold Sensor.push_all. rewrite fold_left_app. reflexivity. Qed.

(** From an empty deque, a sequence of appends leaves the last [n] items. *)
Lemma push_all_lastn (n : nat) (items : list A) :
  Sensor.push_all n [] items = Sensor.lastn n items.
Proof.
  induction items as [| item items IH] using rev_ind.
  - reflexivity.
  - rewrite push_all_snoc, IH, deque_append_lastn.
    + apply lastn_snoc.
    + rewrite lastn_length. lia.
Qed.

End DequeFacts.

(** C1: for every sequence of pushes into [deque(maxlen=N)] the length never
    exceeds [N]; the buffer holds exactly the last [N] readings pushed, in
    insertion order (so after [N + k] pushes, the readings [k+1 .. N+k]); and
    once the buffer is full, one more push evicts exactly the oldest reading. *)
Theorem sensor_buffer_drop_oldest :
  forall (N : nat) (readings : list Sensor.SensorReading),
    length (Sensor.push_all N [] readings) <= N /\
    Sensor.push_all N [] readings = Sensor.lastn N readings /\
    Sensor.lastn N readings = skipn (length readings - N) readings /\
    (forall r, 0 < N -> N <= length readings ->
       Sensor.push_all N [] (readings ++ [r]) =
       tl (Sensor.push_all N [] readings) ++ [r]).
Proof.
  intros N readings.
  split; [| split; [| split]].
  - rewrite push_all_lastn, lastn_length. lia.
  - apply push_all_lastn.
  - reflexivity.
  - intros r HN Hfull.
    rewrite push_all_snoc.
    assert (Hlen : length (Sensor.push_all N [] readings) = N)
      by (rewrite push_all_lastn, lastn_length; lia).
    unfold Sensor.deque_append. rewrite length_app, Hlen. simpl.
    replace (Nat.ltb N (N + 1)) with true by (symmetry; apply Nat.ltb_lt; lia).
    destruct (Sensor.push_all N [] readings) as [| r0 rest].
    + simpl in Hlen. lia.
    + reflexivity.
Qed.

(** Scenario of the spec: capacity 5, timestamps 1..8, the buffer keeps 4..8. *)
Example sensor_buffer_scenario :
  map Sensor.timestamp
    (Sensor.push_all 5 []
       (map (fun t => Sensor.mkReading t 0 0 0)
          [1; 2; 3; 4; 5; 6; 7; 8]%float)) = [4; 5; 6; 7; 8]%float.
Proof. reflexivity. Qed.


(** C6: [get_latest_readings(0)] on a non-empty buffer returns every reading,
    not at most zero: [list(buf)[-0:]] is [list(buf)[0:]]. *)
Theorem get_latest_readings_zero_returns_all (s : Sensor.sensor_state) :
  Sensor.buffer s <> [] ->
  Sensor.get_latest_readings s 0 = map Sensor.to_dict (Sensor.buffer s).
Proof.
  intros Hne. unfold Sensor.get_latest_readings, Sensor.py_slice_from.
  destruct (Sensor.buffer s) as [| r0 rest]; [congruence |].
  reflexivity.
Qed.

Lemma get_latest_readings_zero_witness :
  let s := Sensor.mkSensor 1000 [Sensor.mkReading 1 0.5 0 1] in
  Sensor.buffer s <> [] /\
  length (Sensor.get_latest_readings s 0) = 1%nat.
Proof.
  cbv zeta. split; [discriminate |].
  rewrite (get_latest_readings_zero_returns_all
             (Sensor.mkSensor 1000 [Sensor.mkReading 1 0.5 0 1])) by discriminate.
  reflexivity.
Defined.

(* ------------------------------------------------------------------ *)
(** ** The serial ACK probe *)

Section Probe.
Import Communication.

Lemma send_ack_loop_spec (channel : nat -> serial_outcome) (r a : nat) :
  length (snd (send_ack_loop channel r a)) <= r /\
  (fst (send_ack_loop channel r a) = false ->
     snd (send_ack_loop channel r a) = seq a r /\
     forall i, a <= i < a + r -> attempt_succeeds (channel i) = false) /\
  (fst (send_ack_loop channel r a) = true ->
     exists i, a <= i < a + r /\
       snd (send_ack_loop channel r a) = seq a (S (i - a)) /\
       attempt_succeeds (channel i) = true /\
       forall j, a <= j < i -> attempt_succeeds (channel j) = false).
Proof.
  revert a. induction r as [| r IH]; intros a; simpl.
  - split; [lia | split]; [| discriminate].
    intros _. split; [reflexivity | intros i Hi; lia].
  - destruct (attempt_succeeds (channel a)) eqn:Ha.
    + simpl. split; [lia | split]; [discriminate |].
      intros _. exists a. split; [lia | split; [| split]]; auto.
      * rewrite Nat.sub_diag. reflexivity.
      * intros j Hj. lia.
    + destruct (IH (S a)) as (Hlen & Hfalse & Htrue).
      destruct (send_ack_loop channel r (S a)) as [ok opened]. simpl in *.
      split; [lia | split].
      * intros Hok. destruct (Hfalse Hok) as [Hop Hall]. split.
        -- now rewrite Hop.
        -- intros i Hi. destruct (Nat.eq_dec i a) as [-> | Hne]; [assumption |].
           apply Hall. lia.
      * intros Hok. destruct (Htrue Hok) as (i & Hi & Hop & Hsucc & Hbefore).
        exists i. split; [lia | split; [| split]]; auto.
        -- rewrite Hop. replace (i - a) with (S (i - S a)) by lia.
           reflexivity.
        -- intros j Hj. destruct (Nat.eq_dec j a) as [-> | Hne]; [assumption |].
           apply Hbefore. lia.
Qed.

End Probe.

(** C4: with [n] attempts the probe opens the transport at most [n] times; it
    returns [true] exactly when some attempt [i <= n] reads a response that is
    [ACK] or [OK] after [strip().upper()], and then stops at the first such
    attempt; it returns [false] only after the attempts [1..n] all ran; with
    [attempts = 3] and a transport that always raises, it opens the transport
    three times and returns [false]. *)
Theorem send_ack_bounded_retry (channel : nat -> Communication.serial_outcome) (n : nat) :
  let res := Communication.send_ack channel (Z.of_nat n) in
  length (snd res) <= n /\
  (fst res = true <->
     exists i, 1 <= i <= n /\ Communication.attempt_succeeds (channel i) = true) /\
  (fst res = true ->
     exists i, 1 <= i <= n /\ snd res = seq 1 i /\
       Communication.attempt_succeeds (channel i) = true /\
       forall j, 1 <= j < i -> Communication.attempt_succeeds (channel j) = false) /\
  (fst res = false -> snd res = seq 1 n) /\
  Communication.send_ack (fun _ => Communication.SerialRaised) 3 = (false, [1; 2; 3]).
Proof.
  cbv zeta. unfold Communication.send_ack. rewrite Nat2Z.id.
  destruct (send_ack_loop_spec channel n 1) as (Hlen & Hfalse & Htrue).
  split; [assumption |]. split; [| split; [| split]].
  - split.
    + intros Hok. destruct (Htrue Hok) as (i & Hi & _ & Hs & _).
      exists i. split; [lia | assumption].
    + intros (i & Hi & Hs).
      destruct (fst (Communication.send_ack_loop channel n 1)) eqn:Hok;
        [reflexivity |].
      destruct (Hfalse eq_refl) as [_ Hall].
      rewrite Hall in Hs by lia. discriminate.
  - intros Hok. destruct (Htrue Hok) as (i & Hi & Hop & Hs & Hb).
    exists i. split; [lia |]. split.
    + rewrite Hop. f_equal. lia.
    + split; [assumption |]. intros j Hj. apply Hb. lia.
  - intros Hok. apply (Hfalse Hok).
  - reflexivity.
Qed.

Example send_ack_ok_first :
  Communication.send_ack
    (fun _ => Communication.SerialAnswer (list_ascii_of_string "ok" ++ ["013"%char; "010"%char]))
    3 = (true, [1]).
Proof. reflexivity. Qed.

(* ------------------------------------------------------------------ *)
(** ** The publisher *)

(** [publish] on a [maxsize = 0] queue: Python's [Queue] is then unbounded, so
    the payload is added although the queue was "at" its capacity 0. *)
Lemma publish_offline_zero_capacity :
  let st := snd (Transmitter.publish (fun _ => true) (Transmitter.lte_init 8883 0) "p") in
  Transmitter.maxsize (Transmitter.buffer st) = 0%Z /\
  length (Transmitter.items (Transmitter.buffer st)) = 1.
Proof. split; reflexivity. Qed.

(** C3 (amended): [publish] returns [true] only when connected and the
    immediate send succeeded; while not connected it returns [false]. When it
    returns [false] the payload is queued: for [maxsize >= 1] it is appended
    (size + 1) below capacity and, at capacity, the oldest payload is evicted
    first (size unchanged, never above [maxsize]); for [maxsize <= 0] the queue
    is unbounded and the payload is always appended. *)
Theorem publish_offline_queue (publish_now : string -> bool)
    (st : Transmitter.lte_state) (payload : string) :
  let res := Transmitter.publish publish_now st payload in
  let q := Transmitter.buffer st in
  let q' := Transmitter.buffer (snd res) in
  (fst res = true -> Transmitter.connected st = true /\ publish_now payload = true) /\
  (Transmitter.connected st = false -> fst res = false) /\
  (fst res = false ->
     Transmitter.maxsize q' = Transmitter.maxsize q /\
     ((Transmitter.maxsize q <= 0)%Z ->
        Transmitter.items q' = Transmitter.items q ++ [payload]) /\
     ((0 < Transmitter.maxsize q)%Z ->
        (Z.of_nat (length (Transmitter.items q)) < Transmitter.maxsize q)%Z ->
        Transmitter.items q' = Transmitter.items q ++ [payload]) /\
     ((0 < Transmitter.maxsize q)%Z ->
        Z.of_nat (length (Transmitter.items q)) = Transmitter.maxsize q ->
        Transmitter.items q' = tl (Transmitter.items q) ++ [payload] /\
        length (Transmitter.items q') = length (Transmitter.items q))).
Proof.
  cbv zeta. unfold Transmitter.publish.
  destruct (Transmitter.connected st && publish_now payload)%bool eqn:Hc.
  - apply andb_true_iff in Hc. destruct Hc as [Hc1 Hc2]. simpl.
    split; [intros _; split; assumption |].
    split; [intros Hcon; congruence | discriminate].
  - destruct st as [port con [m its] tls nl dl sf]. simpl in *.
    unfold Transmitter.q_full, Transmitter.q_get_nowait, Transmitter.q_put_nowait.
    simpl.
    destruct (Z.ltb_spec 0 m) as [Hm | Hm]; simpl.
    + destruct (Z.leb_spec m (Z.of_nat (length its))) as [Hfull | Hnf]; simpl.
      * destruct its as [| p0 rest]; [simpl in Hfull; lia |].
        cbn [length] in Hfull |- *. rewrite Nat2Z.inj_succ in Hfull |- *.
        simpl. unfold Transmitter.q_full. simpl.
        rewrite (proj2 (Z.ltb_lt 0 m) Hm). simpl.
        destruct (Z.leb_spec m (Z.of_nat (length rest))) as [Hf2 | Hf2]; simpl;
          (split; [discriminate |]; split; [reflexivity |]; intros _).
        -- split; [reflexivity |].
           split; [intros; lia |]. split; [intros; lia |].
           intros _ Heq. lia.
        -- split; [reflexivity |].
           split; [intros; lia |]. split; [intros; lia |].
           intros _ Heq. split; [reflexivity |].
           rewrite length_app. simpl. lia.
      * unfold Transmitter.q_full. simpl.
        rewrite (proj2 (Z.ltb_lt 0 m) Hm), (proj2 (Z.leb_gt _ _) Hnf). simpl.
        split; [discriminate |]. split; [reflexivity |]. intros _.
        split; [reflexivity |].
        split; [intros; lia |]. split; [intros; reflexivity |].
        intros _ Heq. lia.
    + unfold Transmitter.q_full. simpl.
      rewrite (proj2 (Z.ltb_ge 0 m) Hm). simpl.
      split; [discriminate |]. split; [reflexivity |]. intros _.
      split; [reflexivity |].
      split; [intros; reflexivity |]. split; intros; lia.
Qed.

(** C9: [start()] has no double-start guard. On a non-TLS port a second call
    launches a second drain loop. *)
Theorem start_twice_two_drain_loops :
  Transmitter.drain_loops (Transmitter.start (Transmitter.start (Transmitter.lte_init 1883 1000))) = 2.
Proof. reflexivity. Qed.

(** On port 8883 the second call stops at paho's [tls_set], which raises
    because TLS is already configured, so nothing else happens. *)
Lemma start_twice_tls_port :
  Transmitter.start (Transmitter.start (Transmitter.lte_init 8883 1000)) =
  Transmitter.start (Transmitter.lte_init 8883 1000).
Proof. reflexivity. Qed.

(* ------------------------------------------------------------------ *)
(** ** Batch validation *)

Section BatchFacts.
Import Processor.

Lemma validate_small (columns : list string) (n : nat) :
  n < MIN_SAMPLES_REQUIRED -> exists e, validate columns n = Some e.
Proof.
  intros Hn. unfold validate.
  destruct (filter _ REQUIRED_COLUMNS); [| eauto].
  rewrite (proj2 (Nat.ltb_lt _ _) Hn). eauto.
Qed.

Lemma existsb_eqb_In (c : string) (l : list string) :
  In c l -> existsb (String.eqb c) l = true.
Proof.
  intros Hin. apply existsb_exists. exists c. split; [assumption |].
  apply String.eqb_refl.
Qed.

Lemma no_missing_columns (columns : list string) :
  In "timestamp" columns -> In "x" columns -> In "y" columns -> In "z" columns ->
  filter (fun c => negb (existsb (String.eqb c) columns)) REQUIRED_COLUMNS = [].
Proof.
  intros Ht Hx Hy Hz. unfold REQUIRED_COLUMNS. cbn [filter].
  rewrite (existsb_eqb_In _ _ Ht), (existsb_eqb_In _ _ Hx),
    (existsb_eqb_In _ _ Hy), (existsb_eqb_In _ _ Hz).
  reflexivity.
Qed.

Lemma single_label_column (rs : list reading) (c : string) :
  length (filter (fun k => String.eqb (rename_label k) c) (frame_labels rs)) = 1 ->
  In c (frame_columns rs) /\ exists xs, coerce_column rs c = Ok xs.
Proof.
  intros Hlen. unfold coerce_column, frame_columns.
  destruct (filter _ (frame_labels rs)) as [| k [| k' more]] eqn:Hf;
    simpl in Hlen; try discriminate.
  split; [| eauto].
  assert (Hk : In k (filter (fun k => String.eqb (rename_label k) c) (frame_labels rs)))
    by (rewrite Hf; left; reflexivity).
  apply filter_In in Hk. destruct Hk as [Hk Heq].
  apply String.eqb_eq in Heq. subst c. apply in_map. assumption.
Qed.

Lemma process_batch_small_raises
    (freq : list float -> list float -> list float -> float -> list (string * float))
    (rs : list reading) (rate : float) :
  rs <> [] -> length rs < MIN_SAMPLES_REQUIRED ->
  exists e, process_batch freq rs rate = Err e.
Proof.
  intros Hne Hn. unfold process_batch.
  destruct rs as [| r rest]; [congruence |].
  destruct (coerce_column (r :: rest) "x") as [xs | e]; [| eauto].
  destruct (coerce_column (r :: rest) "y") as [ys | e]; [| eauto].
  destruct (coerce_column (r :: rest) "z") as [zs | e]; [| eauto].
  destruct (validate_small (frame_columns (r :: rest)) (length (r :: rest)) Hn)
    as [e He].
  rewrite He. eauto.
Qed.

End BatchFacts.

(** The empty batch: [process_batch([])] returns [{}] without raising. *)
Lemma process_batch_empty_returns_empty :
  Processor.process_batch (fun _ _ _ _ => []) [] 20%float = Processor.Ok [].
Proof. reflexivity. Qed.

(** C2 (amended): [process_batch] on the empty batch returns the empty dict; on
    a non-empty batch of fewer than 5 readings it always raises (no feature
    dict is returned), and when the frame has a [timestamp] column and exactly
    one column each for [x], [y], [z], what it raises is the insufficient-data
    [ValueError]. *)
Theorem process_batch_fewer_than_five
    (compute_frequency : list float -> list float -> list float -> float -> list (string * float))
    (rs : list Processor.reading) (rate : float) :
  (rs = [] -> Processor.process_batch compute_frequency rs rate = Processor.Ok []) /\
  (rs <> [] -> length rs < 5 ->
     (forall feats, Processor.process_batch compute_frequency rs rate <> Processor.Ok feats) /\
     (In "timestamp" (Processor.frame_columns rs) ->
      (forall c, In c ["x"; "y"; "z"] ->
         length (filter (fun k => String.eqb (Processor.rename_label k) c)
                   (Processor.frame_labels rs)) = 1) ->
      Processor.process_batch compute_frequency rs rate =
      Processor.Err (Processor.ValueError "Insufficient data for processing"))).
Proof.
  split.
  - intros ->. reflexivity.
  - intros Hne Hn. split.
    + intros feats Hok.
      destruct (process_batch_small_raises compute_frequency rs rate Hne Hn) as [e He].
      congruence.
    + intros Hts Hxyz.
      destruct (single_label_column rs "x" (Hxyz "x" (or_introl eq_refl)))
        as [Hx [xs Hxs]].
      destruct (single_label_column rs "y" (Hxyz "y" (or_intror (or_introl eq_refl))))
        as [Hy [ys Hys]].
      destruct (single_label_column rs "z"
                  (Hxyz "z" (or_intror (or_intror (or_introl eq_refl)))))
        as [Hz [zs Hzs]].
      unfold Processor.process_batch.
      destruct rs as [| r rest]; [congruence |].
      rewrite Hxs, Hys, Hzs.
      unfold Processor.validate.
      rewrite (no_missing_columns _ Hts Hx Hy Hz).
      replace (Nat.ltb (length (r :: rest)) Processor.MIN_SAMPLES_REQUIRED)
        with true by (symmetry; apply Nat.ltb_lt; exact Hn).
      reflexivity.
Qed.

(* ------------------------------------------------------------------ *)
(** ** Statistical features of a constant batch *)

(** Ten identical readings [x = 1, y = 0, z = 0]: the coerced columns. *)
Lemma constant_batch_columns :
  let rs := repeat [("timestamp", Processor.Num 0); ("x", Processor.Num 1);
                    ("y", Processor.Num 0); ("z", Processor.Num 0)]%float 10 in
  Processor.coerce_column rs "x" = Processor.Ok (repeat 1%float 10) /\
  Processor.coerce_column rs "y" = Processor.Ok (repeat 0%float 10) /\
  Processor.coerce_column rs "z" = Processor.Ok (repeat 0%float 10).
Proof. vm_compute. repeat split; reflexivity. Qed.

(** On that batch [rms_X] is [sqrt(1 + 1e-12)], which is not [1.0] in binary64,
    and [crest_X] is not [1.0] either. *)
Lemma constant_batch_rms_not_one :
  let feats := Processor.compute_statistical
                 (repeat 1%float 10) (repeat 0%float 10) (repeat 0%float 10) in
  Processor.dict_get feats "rms_X" = Some (Processor.PyFloat (sqrt (1 + Processor.EPS))) /\
  (sqrt (1 + Processor.EPS) =? 1)%float = false /\
  Processor.dict_get feats "crest_X" =
    Some (Processor.PyFloat (1 / sqrt (1 + Processor.EPS))) /\
  (1 / sqrt (1 + Processor.EPS) =? 1)%float = false.
Proof. vm_compute. repeat split; reflexivity. Qed.

(** C5 (amended): for ten identical readings [x = 1, y = 0, z = 0],
    [mean_X = 1] and [std_X = 0] exactly, while [rms_X = sqrt(1 + 1e-12)]
    (the binary64 1.0000000000005) and [crest_X = 1 / rms_X]
    (0.9999999999995): both differ from 1 by less than [1e-12]. *)
Theorem constant_batch_statistics :
  let feats := Processor.compute_statistical
                 (repeat 1%float 10) (repeat 0%float 10) (repeat 0%float 10) in
  Processor.dict_get feats "mean_X" = Some (Processor.PyFloat 1) /\
  Processor.dict_get feats "std_X" = Some (Processor.PyFloat 0) /\
  Processor.dict_get feats "rms_X" = Some (Processor.PyFloat (sqrt (1 + Processor.EPS))) /\
  Processor.dict_get feats "crest_X" =
    Some (Processor.PyFloat (1 / sqrt (1 + Processor.EPS))) /\
  (abs (sqrt (1 + Processor.EPS) - 1) <? Processor.EPS)%float = true /\
  (abs (1 / sqrt (1 + Processor.EPS) - 1) <? Processor.EPS)%float = true.
Proof. vm_compute. repeat split; reflexivity. Qed.

(* ------------------------------------------------------------------ *)
(** ** A batch without an axis column *)

(** A non-empty batch in which no key becomes [x] raises [KeyError('x')]
    at the coercion of [df["x"]], before [_validate] runs. *)
Lemma process_batch_no_x_key_error
    (compute_frequency : list float -> list float -> list float -> float -> list (string * float))
    (rs : list Processor.reading) (rate : float) :
  rs <> [] ->
  filter (fun k => String.eqb (Processor.rename_label k) "x") (Processor.frame_labels rs) = [] ->
  Processor.process_batch compute_frequency rs rate = Processor.Err (Processor.KeyError "x").
Proof.
  intros Hne Hnone. unfold Processor.process_batch.
  destruct rs as [| r rest]; [congruence |].
  unfold Processor.coerce_column at 1. rewrite Hnone. reflexivity.
Qed.

(** C7: five readings with [timestamp], [y], [z] and no [x]: [process_batch]
    raises [KeyError('x')], not the missing-columns [ValueError] that
    [_validate] would raise for that frame. *)
Theorem process_batch_missing_x_raises_key_error
    (compute_frequency : list float -> list float -> list float -> float -> list (string * float))
    (rate : float) :
  let rs := repeat [("timestamp", Processor.Num 0); ("y", Processor.Num 0);
                    ("z", Processor.Num 0)]%float 5 in
  Processor.process_batch compute_frequency rs rate = Processor.Err (Processor.KeyError "x") /\
  Processor.validate (Processor.frame_columns rs) (length rs) =
    Some (Processor.ValueError "Missing columns: ['x']").
Proof. cbv zeta. split; reflexivity. Qed.

(* ------------------------------------------------------------------ *)
(** ** The wire payload *)

Section CsvFacts.
Import Processor.

Lemma has_char_app (c : ascii) (a b : string) :
  has_char c (a ++ b) = has_char c a || has_char c b.
Proof.
  induction a as [| d a IH]; simpl; [reflexivity |].
  rewrite IH. apply Bool.orb_assoc.
Qed.

Lemma has_char_app_false (c : ascii) (a b : string) :
  has_char c a = false -> has_char c b = false -> has_char c (a ++ b) = false.
Proof. intros Ha Hb. rewrite has_char_app, Ha, Hb. reflexivity. Qed.

Lemma has_char_substring (c : ascii) (n m : nat) (s : string) :
  has_char c s = false -> has_char c (substring n m s) = false.
Proof.
  revert n m. induction s as [| d s IH]; intros n m Hs.
  - destruct n, m; reflexivity.
  - simpl in Hs. apply Bool.orb_false_elim in Hs as [Hd Hs].
    destruct n as [| n], m as [| m]; simpl; try reflexivity.
    + rewrite Hd. apply IH, Hs.
    + apply IH, Hs.
    + apply IH, Hs.
Qed.

Lemma digit_char_not_sep (c : ascii) (d : Z) :
  sep_char c -> (0 <= d < 10)%Z -> Ascii.eqb (PyRepr.digit_char d) c = false.
Proof.
  intros Hc Hd. unfold PyRepr.digit_char.
  assert (Hk : (Z.to_nat d < 10)%nat) by lia.
  remember (Z.to_nat d) as k eqn:Ek. clear Ek Hd.
  destruct Hc as [-> | ->];
    do 10 (destruct k as [| k]; [reflexivity |]); lia.
Qed.

Lemma digits_fuel_safe (c : ascii) (fuel : nat) (n : Z) (acc : string) :
  sep_char c -> has_char c acc = false ->
  has_char c (PyRepr.digits_fuel fuel n acc) = false.
Proof.
  intros Hc. revert n acc.
  induction fuel as [| fuel IH]; intros n acc Hacc; simpl; [exact Hacc |].
  assert (Hd : has_char c (String (PyRepr.digit_char (n mod 10)) acc) = false).
  { cbn [has_char].
    rewrite digit_char_not_sep by (exact Hc || (apply Z.mod_pos_bound; lia)).
    exact Hacc. }
  destruct (n / 10 =? 0)%Z; [exact Hd | apply IH, Hd].
Qed.

Lemma nat_digits_safe (c : ascii) (n : Z) :
  sep_char c -> has_char c (PyRepr.nat_digits n) = false.
Proof. intros Hc. apply digits_fuel_safe; [exact Hc | reflexivity]. Qed.

Lemma zeros_safe (c : ascii) (n : nat) :
  sep_char c -> has_char c (PyRepr.zeros n) = false.
Proof.
  intros Hc. induction n as [| n IH]; simpl; [reflexivity |].
  rewrite IH. destruct Hc as [-> | ->]; reflexivity.
Qed.

Ltac piece_safe Hc :=
  repeat match goal with
  | |- has_char _ (_ ++ _) = false => apply has_char_app_false
  | |- has_char _ (if ?b then _ else _) = false => destruct b
  | |- has_char _ (substring _ _ _) = false => apply has_char_substring
  | |- has_char _ (PyRepr.nat_digits _) = false => apply (nat_digits_safe _ _ Hc)
  | |- has_char _ (PyRepr.zeros _) = false => apply (zeros_safe _ _ Hc)
  end;
  try (destruct Hc as [-> | ->]; reflexivity).

(** [str(v)] of an [int] or a [float] never holds a comma or a newline: its
    characters are digits, [.], [e], [+], [-] or those of [inf] and [nan]. *)
Lemma py_str_safe (c : ascii) (v : pyval) :
  sep_char c -> has_char c (py_str v) = false.
Proof.
  intros Hc. destruct v as [f | n]; unfold py_str.
  - unfold PyRepr.float_repr.
    destruct (Prim2SF f) as [s | s | | s m e].
    + destruct s; destruct Hc as [-> | ->]; reflexivity.
    + destruct s; destruct Hc as [-> | ->]; reflexivity.
    + destruct Hc as [-> | ->]; reflexivity.
    + destruct (PyRepr.shortest_digits m e) as [d k].
      unfold PyRepr.format_r. cbv zeta. piece_safe Hc.
  - unfold PyRepr.int_str. piece_safe Hc.
Qed.

Lemma concat_safe (c : ascii) (sep : string) (l : list string) :
  has_char c sep = false -> Forall (fun s => has_char c s = false) l ->
  has_char c (String.concat sep l) = false.
Proof.
  intros Hsep Hl. induction Hl as [| x l Hx Hl IH]; [reflexivity |].
  destruct l as [| y l]; [exact Hx |].
  change (has_char c (x ++ sep ++ String.concat sep (y :: l)) = false).
  apply has_char_app_false; [exact Hx |].
  apply has_char_app_false; assumption.
Qed.

Lemma split_on_no_sep (sep : ascii) (a : string) :
  has_char sep a = false -> split_on sep a = [a].
Proof.
  induction a as [| d a IH]; intros Ha; [reflexivity |].
  simpl in Ha. apply Bool.orb_false_elim in Ha as [Hd Ha].
  simpl. rewrite Hd, (IH Ha). reflexivity.
Qed.

Lemma split_on_app_sep (sep : ascii) (a b : string) :
  has_char sep a = false -> split_on sep (a ++ String sep b) = a :: split_on sep b.
Proof.
  induction a as [| d a IH]; intros Ha.
  - simpl. rewrite Ascii.eqb_refl. reflexivity.
  - simpl in Ha. apply Bool.orb_false_elim in Ha as [Hd Ha].
    simpl. rewrite Hd, (IH Ha). reflexivity.
Qed.

(** Splitting a comma-joined list of fields that hold no comma gives the
    fields back. *)
Lemma split_on_concat (sep : ascii) (l : list string) :
  l <> [] -> Forall (fun s => has_char sep s = false) l ->
  split_on sep (String.concat (String sep "") l) = l.
Proof.
  intros Hne Hl. induction Hl as [| x l Hx Hl IH]; [congruence |].
  destruct l as [| y l].
  - apply split_on_no_sep, Hx.
  - change (split_on sep (x ++ String sep (String.concat (String sep "") (y :: l)))
            = x :: y :: l).
    rewrite split_on_app_sep by exact Hx. f_equal. apply IH. discriminate.
Qed.

Lemma combine_map_self {B : Type} (f : string -> B) (l : list string) :
  combine l (map f l) = map (fun k => (k, f k)) l.
Proof. induction l as [| k l IH]; simpl; [reflexivity | rewrite IH; reflexivity]. Qed.

Lemma dict_get_map_self {B : Type} (f : string -> B) (l : list string) (k : string) :
  dict_get (map (fun k' => (k', f k')) l) k =
  if existsb (String.eqb k) l then Some (f k) else None.
Proof.
  induction l as [| k' l IH]; simpl; [reflexivity |].
  destruct (String.eqb_spec k k') as [-> | _]; [reflexivity | exact IH].
Qed.

Lemma dict_get_in {B : Type} (d : list (string * B)) (k : string) :
  In k (map fst d) -> exists v, dict_get d k = Some v.
Proof.
  induction d as [| [k' v'] d IH]; simpl; [tauto |].
  intros Hin. destruct (String.eqb_spec k k') as [-> | Hne]; [eauto |].
  apply IH. destruct Hin as [-> | Hin]; [congruence | exact Hin].
Qed.

Lemma dict_get_not_in {B : Type} (d : list (string * B)) (k : string) :
  ~ In k (map fst d) -> dict_get d k = None.
Proof.
  induction d as [| [k' v'] d IH]; simpl; intros Hnin; [reflexivity |].
  destruct (String.eqb_spec k k') as [-> | Hne]; [tauto |].
  apply IH. tauto.
Qed.

Lemma insert_key_perm (k : string) (l : list string) :
  Permutation (insert_key k l) (k :: l).
Proof.
  induction l as [| h t IH]; simpl; [reflexivity |].
  destruct (String.leb k h); [reflexivity |].
  rewrite IH. apply perm_swap.
Qed.

Lemma sorted_keys_perm (l : list string) : Permutation (sorted_keys l) l.
Proof.
  induction l as [| k l IH]; simpl; [reflexivity |].
  rewrite insert_key_perm, IH. reflexivity.
Qed.

Lemma insert_key_sorted (k : string) (l : list string) :
  Sorted (fun a b => String.leb a b = true) l ->
  Sorted (fun a b => String.leb a b = true) (insert_key k l).
Proof.
  induction 1 as [| h t Ht IH Hh]; simpl.
  - repeat constructor.
  - destruct (String.leb k h) eqn:E.
    + constructor; [constructor; assumption | constructor; exact E].
    + assert (Hhk : String.leb h k = true)
        by (destruct (String.leb_total k h); congruence).
      constructor; [exact IH |].
      destruct t as [| h' t]; simpl.
      * constructor. exact Hhk.
      * inversion Hh; subst.
        destruct (String.leb k h'); constructor; assumption.
Qed.

Lemma sorted_keys_sorted (l : list string) :
  Sorted (fun a b => String.leb a b = true) (sorted_keys l).
Proof.
  induction l as [| k l IH]; simpl; [constructor | apply insert_key_sorted, IH].
Qed.

(** The round trip of [format_csv] for any non-empty dict whose keys hold
    no comma and no newline. *)
Lemma format_csv_round_trip (feats : features) :
  feats <> [] ->
  Forall (fun k => csv_safe k = true) (map fst feats) ->
  let keys := sorted_keys (map fst feats) in
  Permutation keys (map fst feats) /\
  Sorted (fun a b => String.leb a b = true) keys /\
  format_csv feats =
    (String.concat "," keys ++
     String newline (String.concat "," (map (value_str feats) keys)))%string /\
  split_on newline (format_csv feats) =
    [String.concat "," keys; String.concat "," (map (value_str feats) keys)] /\
  exists parsed,
    spec_parse_wire_payload (format_csv feats) = Some parsed /\
    forall k, dict_get parsed k = option_map py_str (dict_get feats k).
Proof.
  intros Hne Hsafe keys.
  assert (Hperm : Permutation keys (map fst feats)) by apply sorted_keys_perm.
  assert (Hkeys : Forall (fun k => csv_safe k = true) keys)
    by (eapply Permutation_Forall; [symmetry; exact Hperm | exact Hsafe]).
  assert (Hfmt : format_csv feats =
    (String.concat "," keys ++
     String newline (String.concat "," (map (value_str feats) keys)))%string)
    by (destruct feats; [congruence | reflexivity]).
  assert (Hkne : keys <> []).
  { intros E. apply Hne. apply Permutation_length in Hperm.
    rewrite E, length_map in Hperm. destruct feats; [reflexivity | discriminate]. }
  assert (Hkc : Forall (fun s => has_char "," s = false) keys).
  { eapply Forall_impl; [| exact Hkeys]. intros s Hs.
    unfold csv_safe in Hs. apply andb_prop in Hs as [Hs _].
    apply negb_true_iff, Hs. }
  assert (Hkn : Forall (fun s => has_char newline s = false) keys).
  { eapply Forall_impl; [| exact Hkeys]. intros s Hs.
    unfold csv_safe in Hs. apply andb_prop in Hs as [_ Hs].
    apply negb_true_iff, Hs. }
  assert (Hvc : Forall (fun s => has_char "," s = false) (map (value_str feats) keys)).
  { apply Forall_forall. intros s Hs. apply in_map_iff in Hs as (k & <- & _).
    unfold value_str. destruct (dict_get feats k);
      [apply py_str_safe; left; reflexivity | reflexivity]. }
  assert (Hvn : Forall (fun s => has_char newline s = false) (map (value_str feats) keys)).
  { apply Forall_forall. intros s Hs. apply in_map_iff in Hs as (k & <- & _).
    unfold value_str. destruct (dict_get feats k);
      [apply py_str_safe; right; reflexivity | reflexivity]. }
  assert (Hlines : split_on newline (format_csv feats) =
    [String.concat "," keys; String.concat "," (map (value_str feats) keys)]).
  { rewrite Hfmt, split_on_app_sep.
    - rewrite split_on_no_sep; [reflexivity |].
      apply concat_safe; [reflexivity | exact Hvn].
    - apply concat_safe; [reflexivity | exact Hkn]. }
  split; [exact Hperm |]. split; [apply sorted_keys_sorted |].
  split; [exact Hfmt |]. split; [exact Hlines |].
  exists (map (fun k => (k, value_str feats k)) keys). split.
  - unfold spec_parse_wire_payload. rewrite Hlines.
    change "," with (String ","%char "").
    rewrite !split_on_concat; try assumption.
    + rewrite length_map, Nat.eqb_refl, combine_map_self. reflexivity.
    + intros E. apply map_eq_nil in E. contradiction.
  - intros k. rewrite dict_get_map_self.
    destruct (existsb (String.eqb k) keys) eqn:E.
    + apply existsb_exists in E as (k' & Hin & Ek). apply String.eqb_eq in Ek. subst k'.
      apply (Permutation_in _ Hperm) in Hin.
      destruct (dict_get_in feats k Hin) as [v Hv].
      unfold value_str. rewrite Hv. reflexivity.
    + rewrite dict_get_not_in; [reflexivity |].
      intros Hin. apply (Permutation_in _ (Permutation_sym Hperm)) in Hin.
      apply (existsb_eqb_In k) in Hin. congruence.
Qed.

Lemma dict_set_keys_forall {B : Type} (P : string -> Prop)
    (d : list (string * B)) (k : string) (v : B) :
  Forall P (map fst d) -> P k -> Forall P (map fst (dict_set d k v)).
Proof.
  intros Hd Hk. induction d as [| [k' v'] d IH]; simpl; [constructor; auto |].
  inversion Hd; subst.
  destruct (String.eqb k k'); simpl; constructor; auto.
Qed.

Lemma dict_update_keys_forall {B : Type} (P : string -> Prop)
    (d e : list (string * B)) :
  Forall P (map fst d) -> Forall P (map fst e) -> Forall P (map fst (dict_update d e)).
Proof.
  unfold dict_update. revert d.
  induction e as [| [k v] e IH]; intros d Hd He; simpl; [exact Hd |].
  inversion He; subst. apply IH; [apply dict_set_keys_forall |]; assumption.
Qed.

Lemma axis_stats_keys_safe (prefix : string) (series : list float) :
  In prefix ["X"; "Y"; "Z"] ->
  Forall (fun k => csv_safe k = true) (map fst (axis_stats prefix series)).
Proof.
  intros Hp. unfold axis_stats. cbv zeta. cbn [map fst].
  destruct Hp as [<- | [<- | [<- | []]]]; repeat constructor.
Qed.

(** Every key [_compute_statistical] writes is a field of the payload. *)
Lemma compute_statistical_keys_safe (xs ys zs : list float) :
  Forall (fun k => csv_safe k = true) (map fst (compute_statistical xs ys zs)).
Proof.
  unfold compute_statistical.
  apply dict_set_keys_forall; [| reflexivity].
  repeat apply dict_update_keys_forall;
    try (apply axis_stats_keys_safe; simpl; tauto); constructor.
Qed.

(** The keys of a feature vector [process_batch] returns hold no comma and
    no newline, provided those of [_compute_frequency] do (they are the
    literals [fft_X_max], [freq_X_dominant], [energy_X_0_10Hz], ...). *)
Lemma process_batch_keys_safe
    (compute_frequency : list float -> list float -> list float -> float -> list (string * float))
    (rs : list reading) (rate : float) (feats : features) :
  (forall xs ys zs r,
     Forall (fun k => csv_safe k = true) (map fst (compute_frequency xs ys zs r))) ->
  process_batch compute_frequency rs rate = Ok feats ->
  Forall (fun k => csv_safe k = true) (map fst feats).
Proof.
  intros Hfreq Hpb. unfold process_batch in Hpb.
  destruct rs as [| r rest]; [injection Hpb as <-; constructor |].
  destruct (coerce_column (r :: rest) "x") as [xs | e]; [| discriminate].
  destruct (coerce_column (r :: rest) "y") as [ys | e]; [| discriminate].
  destruct (coerce_column (r :: rest) "z") as [zs | e]; [| discriminate].
  destruct (validate _ _) as [e |]; [discriminate |].
  destruct (timestamp_values _) as [ts | e]; [| discriminate].
  match type of Hpb with
  | @eq _ (Ok ?v) _ =>
      assert (Hv : Forall (fun k => csv_safe k = true) (map fst v)); [| congruence]
  end.
  repeat (apply dict_set_keys_forall; [| reflexivity]).
  apply dict_update_keys_forall.
  - apply dict_update_keys_forall; [constructor | apply compute_statistical_keys_safe].
  - rewrite map_map. cbn. apply Hfreq.
Qed.

(** A key with a comma breaks the payload: the header of the dict
    [{"a,b": 1}] has two fields and its row one. *)
Example format_csv_comma_key :
  format_csv [("a,b", PyInt 1)] = ("a,b" ++ String newline "1")%string /\
  spec_parse_wire_payload (format_csv [("a,b", PyInt 1)]) = None.
Proof. split; reflexivity. Qed.

(** C8: for every non-empty feature vector [process_batch] returns, the
    wire payload [format_csv(feats)] is the header (the keys, sorted
    lexicographically and joined by commas), a newline, and the row (the
    [str] of the values in the same key order, joined by commas); it splits
    into exactly these two lines, and reading the header and the row back
    maps every key to the [str] of its value and nothing else to anything.
    The keys of [_compute_frequency], which is not embedded, are assumed to
    hold no comma and no newline, as its literal keys do. *)
Theorem format_csv_wire_payload
    (compute_frequency : list float -> list float -> list float -> float -> list (string * float))
    (rs : list reading) (rate : float) (feats : features) :
  (forall xs ys zs r,
     Forall (fun k => csv_safe k = true) (map fst (compute_frequency xs ys zs r))) ->
  process_batch compute_frequency rs rate = Ok feats ->
  feats <> [] ->
  let keys := sorted_keys (map fst feats) in
  Permutation keys (map fst feats) /\
  Sorted (fun a b => String.leb a b = true) keys /\
  format_csv feats =
    (String.concat "," keys ++
     String newline (String.concat "," (map (value_str feats) keys)))%string /\
  split_on newline (format_csv feats) =
    [String.concat "," keys; String.concat "," (map (value_str feats) keys)] /\
  exists parsed,
    spec_parse_wire_payload (format_csv feats) = Some parsed /\
    forall k, dict_get parsed k = option_map py_str (dict_get feats k).
Proof.
  intros Hfreq Hpb Hne.
  apply format_csv_round_trip; [exact Hne |].
  exact (process_batch_keys_safe compute_frequency rs rate feats Hfreq Hpb).
Qed.

Lemma format_csv_wire_payload_witness :
  match process_batch (fun _ _ _ _ => [("fft_X_max", 0.5); ("freq_X_dominant", 25)]%float)
          (repeat [("timestamp", Num 0); ("x", Num 1); ("y", Num 0);
                   ("z", Num 0)]%float 5) 100%float with
  | Ok feats =>
      feats <> [] /\
      exists parsed,
        spec_parse_wire_payload (format_csv feats) = Some parsed /\
        forall k, dict_get parsed k = option_map py_str (dict_get feats k)
  | Err _ => False
  end.
Proof.
  match goal with |- match ?t with _ => _ end => destruct t as [feats | e] eqn:E end.
  - assert (Hne : feats <> []) by (intros ->; vm_compute in E; discriminate).
    assert (Hfreq : forall (xs ys zs : list float) (r : float),
      Forall (fun k => csv_safe k = true)
        (map fst ((fun _ _ _ _ => [("fft_X_max", 0.5); ("freq_X_dominant", 25)]%float)
                  xs ys zs r : list (string * float))))
      by (intros; repeat constructor).
    destruct (format_csv_wire_payload _ _ _ _ Hfreq E Hne) as (_ & _ & _ & _ & Hp).
    split; [exact Hne | exact Hp].
  - vm_compute in E. discriminate.
Defined.

End CsvFacts.

(* ------------------------------------------------------------------ *)
(** ** Rounding to binary64 keeps the sign

    [binary_round_aux] shifts the mantissa right, rounds to nearest even and
    shifts again; a positive mantissa stays positive as long as the value is
    not below the subnormal range, and a bounded one does not overflow. *)

Section Binary64Facts.
Import Binary64.
Local Open Scope Z_scope.

Lemma emin64 : SpecFloat.emin prec emax = (-1074)%Z.
Proof. reflexivity. Qed.

Lemma fexp64 (e : Z) : SpecFloat.fexp prec emax e = Z.max (e - 53) (-1074).
Proof. reflexivity. Qed.

Lemma digits2_pos_size (p : positive) : SpecFloat.digits2_pos p = Pos.size p.
Proof. induction p as [p IH | p IH |]; simpl; rewrite ?IH; reflexivity. Qed.

Lemma Zdigits2_log2 (m : Z) : (0 < m)%Z -> SpecFloat.Zdigits2 m = (Z.log2 m + 1)%Z.
Proof.
  intros Hm. destruct m as [| p | p]; try lia. simpl.
  rewrite digits2_pos_size.
  destruct p as [p | p |]; simpl; try reflexivity;
    rewrite Pos2Z.inj_succ; reflexivity.
Qed.

Lemma shr_1_m (mrs : shr_record) :
  (0 <= shr_m mrs)%Z -> shr_m (shr_1 mrs) = (shr_m mrs / 2)%Z.
Proof.
  destruct mrs as [m r s]. simpl. intros Hm.
  rewrite <- Z.div2_div.
  destruct m as [| [p | p |] | p]; try reflexivity; lia.
Qed.

Lemma iter_shr_1_m (p : positive) (mrs : shr_record) :
  (0 <= shr_m mrs)%Z ->
  shr_m (SpecFloat.iter_pos shr_1 p mrs) = (shr_m mrs / 2 ^ Z.pos p)%Z.
Proof.
  revert mrs.
  induction p as [p IH | p IH |]; intros mrs Hm; cbn [SpecFloat.iter_pos].
  - assert (H1 := shr_1_m mrs Hm).
    assert (H2 : shr_m (SpecFloat.iter_pos shr_1 p (shr_1 mrs)) =
                 (shr_m mrs / 2 / 2 ^ Z.pos p)%Z)
      by (rewrite IH, H1; [reflexivity | rewrite H1; apply Z.div_pos; lia]).
    rewrite IH, H2 by (rewrite H2; apply Z.div_pos; [apply Z.div_pos |]; lia).
    rewrite !Z.div_div by lia. f_equal.
    replace (Z.pos p~1) with (1 + Z.pos p + Z.pos p)%Z by lia.
    rewrite !Z.pow_add_r by lia. ring.
  - assert (H2 : shr_m (SpecFloat.iter_pos shr_1 p mrs) = (shr_m mrs / 2 ^ Z.pos p)%Z)
      by (apply IH, Hm).
    rewrite IH, H2 by (rewrite H2; apply Z.div_pos; lia).
    rewrite Z.div_div by lia. f_equal.
    replace (Z.pos p~0) with (Z.pos p + Z.pos p)%Z by lia.
    rewrite Z.pow_add_r by lia. reflexivity.
  - apply shr_1_m, Hm.
Qed.

Lemma shr_fexp_spec (m e : Z) (l : location) :
  (0 <= m)%Z ->
  shr_m (fst (SpecFloat.shr_fexp prec emax m e l)) =
    (m / 2 ^ Z.max 0 (SpecFloat.fexp prec emax (SpecFloat.Zdigits2 m + e) - e))%Z /\
  snd (SpecFloat.shr_fexp prec emax m e l) =
    (e + Z.max 0 (SpecFloat.fexp prec emax (SpecFloat.Zdigits2 m + e) - e))%Z.
Proof.
  intros Hm. unfold SpecFloat.shr_fexp, SpecFloat.shr.
  assert (Hr : shr_m (shr_record_of_loc m l) = m) by (destruct l as [| []]; reflexivity).
  destruct (SpecFloat.fexp prec emax (SpecFloat.Zdigits2 m + e) - e)%Z as [| p | p];
    cbn [fst snd Z.max Z.compare]; split.
  - rewrite Hr, Z.pow_0_r, Z.div_1_r. reflexivity.
  - lia.
  - rewrite iter_shr_1_m, Hr; [reflexivity | rewrite Hr; exact Hm].
  - reflexivity.
  - rewrite Hr, Z.pow_0_r, Z.div_1_r. reflexivity.
  - lia.
Qed.

Lemma round_nearest_even_ge (m : Z) (l : location) :
  (m <= round_nearest_even m l)%Z.
Proof. destruct l as [| []]; simpl; try lia. destruct (Z.even m); lia. Qed.

Lemma round_aux_nonneg (mx ex : Z) (lx : location) :
  (0 <= mx)%Z -> nonneg_sf (SpecFloat.binary_round_aux prec emax false mx ex lx).
Proof.
  intros Hm. unfold SpecFloat.binary_round_aux.
  destruct (shr_fexp_spec mx ex lx Hm) as [Hm1 _].
  destruct (SpecFloat.shr_fexp prec emax mx ex lx) as [mrs1 e1]. cbn [fst] in Hm1.
  assert (H2 : (0 <= round_nearest_even (shr_m mrs1) (loc_of_shr_record mrs1))%Z).
  { pose proof (round_nearest_even_ge (shr_m mrs1) (loc_of_shr_record mrs1)).
    assert (0 <= shr_m mrs1)%Z by (rewrite Hm1; apply Z.div_pos; lia). lia. }
  destruct (shr_fexp_spec _ e1 loc_Exact H2) as [Hm3 _].
  destruct (SpecFloat.shr_fexp prec emax _ e1 loc_Exact) as [mrs3 e3]. cbn [fst] in Hm3.
  assert (H3 : (0 <= shr_m mrs3)%Z) by (rewrite Hm3; apply Z.div_pos; lia).
  destruct (shr_m mrs3) as [| p | p]; [exact I | | lia].
  destruct (Z.leb _ _); exact I.
Qed.

Lemma shr_fexp_pos (m e : Z) (l : location) :
  (1 <= m)%Z -> (-1074 < SpecFloat.Zdigits2 m + e)%Z ->
  (1 <= shr_m (fst (SpecFloat.shr_fexp prec emax m e l)))%Z /\
  (forall m', (shr_m (fst (SpecFloat.shr_fexp prec emax m e l)) <= m')%Z ->
     (-1074 < SpecFloat.Zdigits2 m' + snd (SpecFloat.shr_fexp prec emax m e l))%Z).
Proof.
  intros Hm HD.
  destruct (shr_fexp_spec m e l ltac:(lia)) as [Hm1 He1].
  rewrite Hm1, He1. rewrite fexp64 in *.
  rewrite Zdigits2_log2 in * by lia.
  pose proof (Z.log2_nonneg m).
  set (n := Z.max 0 (Z.max (Z.log2 m + 1 + e - 53) (-1074) - e)).
  assert (Hn : (0 <= n <= Z.log2 m)%Z) by (unfold n; lia).
  assert (Hpow : (2 ^ n <= m)%Z).
  { apply Z.le_trans with (2 ^ Z.log2 m)%Z.
    - apply Z.pow_le_mono_r; lia.
    - apply Z.log2_spec. lia. }
  assert (H1 : (1 <= m / 2 ^ n)%Z).
  { apply Z.div_le_lower_bound; [apply Z.pow_pos_nonneg |]; lia. }
  split; [exact H1 |].
  intros m' Hm'. rewrite Zdigits2_log2 by lia.
  assert (Hlog : (Z.log2 (m / 2 ^ n) <= Z.log2 m')%Z) by (apply Z.log2_le_mono; lia).
  pose proof (Z.log2_nonneg m').
  destruct (Z.eq_dec n 0) as [Hn0 | Hn0].
  - rewrite Hn0, Z.pow_0_r, Z.div_1_r in Hlog. lia.
  - unfold n in *. lia.
Qed.

Lemma round_aux_pos (mx ex : Z) (lx : location) :
  (1 <= mx)%Z -> (-1074 < SpecFloat.Zdigits2 mx + ex)%Z ->
  pos_sf (SpecFloat.binary_round_aux prec emax false mx ex lx).
Proof.
  intros Hm HD. unfold SpecFloat.binary_round_aux.
  destruct (shr_fexp_pos mx ex lx Hm HD) as [Hm1 HD1].
  destruct (SpecFloat.shr_fexp prec emax mx ex lx) as [mrs1 e1]. cbn [fst snd] in *.
  set (m2 := round_nearest_even (shr_m mrs1) (loc_of_shr_record mrs1)).
  assert (H2 : (shr_m mrs1 <= m2)%Z) by apply round_nearest_even_ge.
  destruct (shr_fexp_pos m2 e1 loc_Exact ltac:(lia) (HD1 m2 H2)) as [Hm3 _].
  destruct (SpecFloat.shr_fexp prec emax m2 e1 loc_Exact) as [mrs3 e3]. cbn [fst] in Hm3.
  destruct (shr_m mrs3) as [| p | p]; try lia.
  destruct (Z.leb _ _); exact I.
Qed.

Lemma valid_exp (s : bool) (m : positive) (e : Z) :
  SpecFloat.valid_binary prec emax (S754_finite s m e) = true -> (-1074 <= e)%Z.
Proof.
  unfold SpecFloat.valid_binary, SpecFloat.bounded, SpecFloat.canonical_mantissa.
  intros H. apply andb_prop in H as [H _]. apply Z.eqb_eq in H.
  rewrite fexp64 in H. lia.
Qed.

Lemma digits2_pos_ge1 (p : positive) : (1 <= SpecFloat.Zdigits2 (Zpos p))%Z.
Proof. simpl. lia. Qed.

Lemma binary_round_nonneg (p : positive) (e : Z) :
  nonneg_sf (SpecFloat.binary_round prec emax false p e).
Proof.
  unfold SpecFloat.binary_round.
  destruct (SpecFloat.shl_align _ _ _) as [mz ez].
  apply round_aux_nonneg. lia.
Qed.

Lemma shl_align_exp (p : positive) (e e' : Z) :
  (-1074 <= e)%Z -> (-1074 <= e')%Z -> (-1074 <= snd (SpecFloat.shl_align p e e'))%Z.
Proof.
  intros He He'. unfold SpecFloat.shl_align.
  destruct (e' - e)%Z; simpl; lia.
Qed.

Lemma binary_round_pos (p : positive) (e : Z) :
  (-1074 <= e)%Z -> pos_sf (SpecFloat.binary_round prec emax false p e).
Proof.
  intros He. unfold SpecFloat.binary_round.
  pose proof (shl_align_exp p e (SpecFloat.fexp prec emax (Zpos (SpecFloat.digits2_pos p) + e)) He
                ltac:(rewrite fexp64; lia)) as Hez.
  destruct (SpecFloat.shl_align _ _ _) as [mz ez]. cbn [snd] in Hez.
  apply round_aux_pos; [lia |]. pose proof (digits2_pos_ge1 mz). lia.
Qed.

(** [v * v] is [+0], a positive finite or [+inf] unless [v] is NaN. *)
Lemma mul_self_nonneg (x : spec_float) :
  x <> S754_nan -> nonneg_sf (SF64mul x x).
Proof.
  intros Hx. unfold SF64mul.
  destruct x as [s | s | | s m e]; cbn [SpecFloat.SFmul].
  - rewrite Bool.xorb_nilpotent. exact I.
  - rewrite Bool.xorb_nilpotent. exact I.
  - congruence.
  - rewrite Bool.xorb_nilpotent. apply round_aux_nonneg. lia.
Qed.

Lemma add_nonneg (x y : spec_float) :
  nonneg_sf x -> nonneg_sf y -> nonneg_sf (SF64add x y).
Proof.
  intros Hx Hy. unfold SF64add.
  destruct x as [[] | [] | | [] mx ex]; try contradiction;
  destruct y as [[] | [] | | [] my ey]; try contradiction;
  cbn [SpecFloat.SFadd]; try exact I.
  cbn [SpecFloat.cond_Zopp Z.add SpecFloat.binary_normalize].
  apply binary_round_nonneg.
Qed.

Lemma add_pos (x y : spec_float) :
  nonneg_sf x -> pos_sf y ->
  SpecFloat.valid_binary prec emax x = true -> SpecFloat.valid_binary prec emax y = true ->
  pos_sf (SF64add x y).
Proof.
  intros Hx Hy Vx Vy. unfold SF64add.
  destruct x as [[] | [] | | [] mx ex]; try contradiction;
  destruct y as [[] | [] | | [] my ey]; try contradiction;
  cbn [SpecFloat.SFadd]; try exact I.
  cbn [SpecFloat.cond_Zopp Z.add SpecFloat.binary_normalize].
  apply binary_round_pos.
  apply valid_exp in Vx. apply valid_exp in Vy. lia.
Qed.

Lemma div_core_nonneg (ma mb : positive) (ea eb : Z) :
  (0 <= fst (fst (SpecFloat.SFdiv_core_binary prec emax (Zpos ma) ea (Zpos mb) eb)))%Z.
Proof.
  unfold SpecFloat.SFdiv_core_binary. cbv zeta.
  set (e' := Z.min _ _).
  remember (ea - eb - e')%Z as s eqn:Es.
  assert (Hq : forall a, (0 <= a)%Z -> (0 <= fst (Z.div_eucl a (Zpos mb)))%Z).
  { intros a Ha. pose proof (Z.div_pos a (Zpos mb) Ha ltac:(lia)) as H.
    unfold Z.div in H. destruct (Z.div_eucl a (Zpos mb)). exact H. }
  destruct s as [| p | p].
  - pose proof (Hq (Zpos ma) ltac:(lia)).
    destruct (Z.div_eucl (Zpos ma) (Zpos mb)). assumption.
  - pose proof (Hq (Z.shiftl (Zpos ma) (Zpos p)) ltac:(apply Z.shiftl_nonneg; lia)).
    destruct (Z.div_eucl _ (Zpos mb)). assumption.
  - pose proof (Hq 0%Z ltac:(lia)).
    destruct (Z.div_eucl 0 (Zpos mb)). assumption.
Qed.

Lemma div_nonneg (x : spec_float) (mb : positive) (eb : Z) :
  nonneg_sf x -> nonneg_sf (SF64div x (S754_finite false mb eb)).
Proof.
  intros Hx. unfold SF64div.
  destruct x as [[] | [] | | [] mx ex]; try contradiction;
    cbn [SpecFloat.SFdiv xorb]; try exact I.
  pose proof (div_core_nonneg mx mb ex eb) as Hq.
  destruct (SpecFloat.SFdiv_core_binary _ _ _ _ _ _) as [[mz ez] lz].
  apply round_aux_nonneg. exact Hq.
Qed.

Lemma sqrt_core_pos (m : positive) (e : Z) :
  (-1074 <= e)%Z ->
  (1 <= fst (fst (SpecFloat.SFsqrt_core_binary prec emax (Zpos m) e)))%Z /\
  (-1074 <= snd (fst (SpecFloat.SFsqrt_core_binary prec emax (Zpos m) e)))%Z.
Proof.
  intros He. unfold SpecFloat.SFsqrt_core_binary. cbv zeta.
  set (e' := Z.min _ _).
  assert (He' : (-1074 <= e')%Z /\ (2 * e' <= e)%Z).
  { unfold e'. rewrite fexp64, !Z.div2_div.
    pose proof (Z.mul_div_le e 2 ltac:(lia)).
    pose proof (Z.div_le_mono (-1074) e 2 ltac:(lia) He) as Hd.
    change ((-1074) / 2)%Z with (-537)%Z in Hd. lia. }
  remember (e - 2 * e')%Z as s eqn:Es.
  assert (Hr : forall a, (1 <= a)%Z ->
    (1 <= fst (fst (let (q, r) := Z.sqrtrem a in
               (q, e', if (r =? 0)%Z then loc_Exact
                       else loc_Inexact (if (r <=? q)%Z then Lt else Gt)))))%Z /\
    (-1074 <= snd (fst (let (q, r) := Z.sqrtrem a in
               (q, e', if (r =? 0)%Z then loc_Exact
                       else loc_Inexact (if (r <=? q)%Z then Lt else Gt)))))%Z).
  { intros a Ha. pose proof (Z.sqrtrem_sqrt a) as Hs.
    assert (Hsq : (1 <= Z.sqrt a)%Z)
      by (rewrite <- Z.sqrt_1; apply Z.sqrt_le_mono; exact Ha).
    destruct (Z.sqrtrem a) as [q r]. cbn [fst snd] in *. subst q. lia. }
  destruct s as [| p | p].
  - apply Hr. lia.
  - apply Hr. rewrite Z.shiftl_mul_pow2 by lia.
    pose proof (Z.pow_pos_nonneg 2 (Zpos p) ltac:(lia) ltac:(lia)). nia.
  - lia.
Qed.

Lemma sqrt_pos (x : spec_float) :
  pos_sf x -> SpecFloat.valid_binary prec emax x = true -> pos_sf (SF64sqrt x).
Proof.
  intros Hx Vx. unfold SF64sqrt.
  destruct x as [[] | [] | | [] mx ex]; try contradiction;
    cbn [SpecFloat.SFsqrt]; try exact I.
  apply valid_exp in Vx.
  destruct (sqrt_core_pos mx ex Vx) as [Hq He].
  destruct (SpecFloat.SFsqrt_core_binary _ _ _ _) as [[mz ez] lz].
  cbn [fst snd] in *.
  apply round_aux_pos; [exact Hq |].
  rewrite Zdigits2_log2 by lia. pose proof (Z.log2_nonneg mz). lia.
Qed.

Lemma Zdigits2_nonneg (m : Z) : (0 <= m)%Z -> (0 <= SpecFloat.Zdigits2 m)%Z.
Proof. destruct m; simpl; lia. Qed.

Lemma shr_fexp_upper (m e : Z) (l : location) :
  (0 <= m)%Z ->
  (shr_m (fst (SpecFloat.shr_fexp prec emax m e l)) <= m)%Z /\
  (snd (SpecFloat.shr_fexp prec emax m e l) <= Z.max (-1074) (Z.max e (SpecFloat.Zdigits2 m + e)))%Z.
Proof.
  intros Hm. destruct (shr_fexp_spec m e l Hm) as [Hm1 He1].
  rewrite Hm1, He1, fexp64. pose proof (Zdigits2_nonneg m Hm). split; [| lia].
  set (n := Z.max 0 _).
  assert (Hp : (1 <= 2 ^ n)%Z)
    by (apply (Z.pow_le_mono_r 2 0 n); unfold n; lia).
  apply Z.div_le_upper_bound; nia.
Qed.

Lemma round_nearest_even_le (m : Z) (l : location) :
  (round_nearest_even m l <= m + 1)%Z.
Proof. destruct l as [| []]; simpl; try lia. destruct (Z.even m); lia. Qed.

Lemma Zdigits2_lt (m k : Z) : (1 <= m)%Z -> (m < 2 ^ k)%Z -> (SpecFloat.Zdigits2 m <= k)%Z.
Proof.
  intros Hm Hk. rewrite Zdigits2_log2 by lia.
  assert (0 <= k)%Z.
  { destruct (Z.neg_nonneg_cases k) as [Hn | Hn]; [| exact Hn].
    rewrite Z.pow_neg_r in Hk by exact Hn. lia. }
  assert (Z.log2 m < k)%Z by (apply Z.log2_lt_pow2; lia). lia.
Qed.

Lemma round_aux_finite (mx ex : Z) (lx : location) :
  (1 <= mx < 2 ^ 200)%Z -> (-1074 < SpecFloat.Zdigits2 mx + ex)%Z -> (ex <= 200)%Z ->
  fin_pos_sf (SpecFloat.binary_round_aux prec emax false mx ex lx).
Proof.
  intros Hm HD He. unfold SpecFloat.binary_round_aux.
  destruct (shr_fexp_pos mx ex lx ltac:(lia) HD) as [Hm1 HD1].
  destruct (shr_fexp_upper mx ex lx ltac:(lia)) as [Hu1 He1].
  pose proof (Zdigits2_lt mx 200 ltac:(lia) ltac:(lia)).
  destruct (SpecFloat.shr_fexp prec emax mx ex lx) as [mrs1 e1]. cbn [fst snd] in *.
  set (m2 := round_nearest_even (shr_m mrs1) (loc_of_shr_record mrs1)).
  assert (H2 : (shr_m mrs1 <= m2 <= shr_m mrs1 + 1)%Z)
    by (split; [apply round_nearest_even_ge | apply round_nearest_even_le]).
  destruct (shr_fexp_pos m2 e1 loc_Exact ltac:(lia) (HD1 m2 ltac:(lia))) as [Hm3 _].
  destruct (shr_fexp_upper m2 e1 loc_Exact ltac:(lia)) as [_ He3].
  assert (m2 < 2 ^ 201)%Z.
  { change (2 ^ 201)%Z with (2 * 2 ^ 200)%Z. lia. }
  pose proof (Zdigits2_lt m2 201 ltac:(lia) ltac:(lia)).
  destruct (SpecFloat.shr_fexp prec emax m2 e1 loc_Exact) as [mrs3 e3]. cbn [fst snd] in *.
  destruct (shr_m mrs3) as [| p | p]; try lia.
  replace (e3 <=? emax - prec)%Z with true by (symmetry; apply Z.leb_le; unfold emax, prec; lia).
  exact I.
Qed.

Lemma iter_xO (p d : positive) : Zpos (Pos.iter xO p d) = (Zpos p * 2 ^ Zpos d)%Z.
Proof.
  induction d as [| d IH] using Pos.peano_ind.
  - simpl. lia.
  - rewrite Pos.iter_succ, Pos2Z.inj_succ, Z.pow_succ_r by lia.
    change (Zpos (Pos.iter xO p d)~0) with (2 * Zpos (Pos.iter xO p d))%Z.
    rewrite IH. ring.
Qed.

Lemma binary_round_finite (p : positive) :
  (Zpos p < 2 ^ 63)%Z -> fin_pos_sf (SpecFloat.binary_round prec emax false p 0).
Proof.
  intros Hp. unfold SpecFloat.binary_round, SpecFloat.shl_align.
  pose proof (Zdigits2_lt (Zpos p) 63 ltac:(lia) Hp) as HD. cbn [SpecFloat.Zdigits2] in HD.
  pose proof (digits2_pos_ge1 p) as HD1. cbn [SpecFloat.Zdigits2] in HD1.
  rewrite fexp64, Z.sub_0_r.
  remember (Z.max (Zpos (SpecFloat.digits2_pos p) + 0 - 53) (-1074))%Z as f eqn:Ef.
  destruct f as [| d | d]; apply round_aux_finite; cbn [SpecFloat.Zdigits2]; try lia.
  rewrite iter_xO. split; [nia |].
  assert (Zpos d <= 52)%Z by lia.
  assert (2 ^ Zpos d <= 2 ^ 52)%Z by (apply Z.pow_le_mono_r; lia).
  assert (Zpos p * 2 ^ Zpos d < 2 ^ 63 * 2 ^ 52)%Z.
  { apply Z.le_lt_trans with (Zpos p * 2 ^ 52)%Z; [| apply Z.mul_lt_mono_pos_r]; try lia.
    apply Z.mul_le_mono_nonneg_l; lia. }
  rewrite <- Z.pow_add_r in H1 by lia.
  assert (2 ^ (63 + 52) < 2 ^ 200)%Z by (apply Z.pow_lt_mono_r; lia). lia.
Qed.

End Binary64Facts.

(* ------------------------------------------------------------------ *)
(** ** [rms] is positive *)

Section RmsFacts.
Import Binary64 Processor.
Local Open Scope float_scope.

Lemma fnonneg_zero : fnonneg 0.
Proof. exact I. Qed.

Lemma fnonneg_add (x y : float) : fnonneg x -> fnonneg y -> fnonneg (x + y).
Proof. unfold fnonneg. rewrite FloatAxioms.add_spec. apply add_nonneg. Qed.

Lemma fsum_seq_nonneg (acc : float) (l : list float) :
  fnonneg acc -> Forall fnonneg l -> fnonneg (fsum_seq acc l).
Proof.
  unfold fsum_seq. revert acc.
  induction l as [| a l IH]; intros acc Hacc Hl; simpl; [exact Hacc |].
  inversion Hl; subst. apply IH; [apply fnonneg_add |]; assumption.
Qed.

Lemma lanes_add_nonneg (r c : list float) :
  Forall fnonneg r -> Forall fnonneg c -> Forall fnonneg (lanes_add r c).
Proof.
  revert c. induction r as [| a r IH]; intros c Hr Hc; [constructor |].
  destruct c as [| b c]; [exact Hr |]. simpl.
  inversion Hr; inversion Hc; subst. constructor; [apply fnonneg_add | apply IH]; assumption.
Qed.

Lemma Forall_firstn' {A} (P : A -> Prop) n (l : list A) : Forall P l -> Forall P (firstn n l).
Proof.
  intros H. rewrite <- (firstn_skipn n l) in H. apply Forall_app in H. tauto.
Qed.

Lemma Forall_skipn' {A} (P : A -> Prop) n (l : list A) : Forall P l -> Forall P (skipn n l).
Proof.
  intros H. rewrite <- (firstn_skipn n l) in H. apply Forall_app in H. tauto.
Qed.

Lemma chunks8_nonneg (fuel : nat) (l : list float) :
  Forall fnonneg l -> Forall (Forall fnonneg) (chunks8 fuel l).
Proof.
  revert l. induction fuel as [| f IH]; intros l Hl; [constructor |].
  destruct l as [| a l']; [constructor |].
  cbn [chunks8]. constructor.
  - apply Forall_firstn'. exact Hl.
  - apply IH, Forall_skipn', Hl.
Qed.

Lemma fold_lanes_nonneg (cs : list (list float)) (r : list float) :
  Forall (Forall fnonneg) cs -> Forall fnonneg r -> Forall fnonneg (fold_left lanes_add cs r).
Proof.
  revert r. induction cs as [| c cs IH]; intros r Hcs Hr; [exact Hr |].
  inversion Hcs; subst. simpl. apply IH; [assumption | apply lanes_add_nonneg; assumption].
Qed.

Lemma nth_nonneg (j : nat) (r : list float) : Forall fnonneg r -> fnonneg (nth j r 0).
Proof.
  revert r. induction j as [| j IH]; intros [| a r] Hr; try exact I;
    inversion Hr; subst; [assumption | apply IH; assumption].
Qed.

Lemma pairwise_block_nonneg (l : list float) :
  Forall fnonneg l -> fnonneg (pairwise_block l).
Proof.
  intros Hl. unfold pairwise_block. cbv zeta.
  apply fsum_seq_nonneg; [| apply Forall_skipn', Hl].
  assert (Hr : Forall fnonneg
    (fold_left lanes_add
       (chunks8 (length l) (skipn 8 (firstn (length l - Nat.modulo (length l) 8) l)))
       (firstn 8 l))).
  { apply fold_lanes_nonneg.
    - apply chunks8_nonneg, Forall_skipn', Forall_firstn', Hl.
    - apply Forall_firstn', Hl. }
  repeat apply fnonneg_add; apply nth_nonneg, Hr.
Qed.

Lemma pairwise_sum_nonneg (fuel : nat) (l : list float) :
  Forall fnonneg l -> fnonneg (pairwise_sum fuel l).
Proof.
  revert l. induction fuel as [| f IH]; intros l Hl; [exact I |].
  cbn [pairwise_sum]. cbv zeta.
  destruct (Nat.ltb _ _); [apply fsum_seq_nonneg; [exact I | exact Hl] |].
  destruct (Nat.leb _ _); [apply pairwise_block_nonneg, Hl |].
  apply fnonneg_add; apply IH; [apply Forall_firstn' | apply Forall_skipn']; exact Hl.
Qed.

Lemma np_sum_nonneg (l : list float) : Forall fnonneg l -> fnonneg (np_sum l).
Proof. intros Hl. apply fnonneg_add; [exact I | apply pairwise_sum_nonneg, Hl]. Qed.

Lemma float_of_nat_fin (n : nat) :
  (1 <= Z.of_nat n < 2 ^ 63)%Z -> fin_pos_sf (Prim2SF (float_of_nat n)).
Proof.
  intros Hn. unfold float_of_nat. rewrite FloatAxioms.of_uint63_spec, Uint63.of_Z_spec.
  rewrite Z.mod_small by (unfold Uint63.wB; simpl; lia).
  destruct (Z.of_nat n) as [| p | p] eqn:E; try lia.
  apply binary_round_finite. lia.
Qed.

Lemma np_mean_nonneg (l : list float) :
  (1 <= Z.of_nat (length l) < 2 ^ 63)%Z -> Forall fnonneg l -> fnonneg (np_mean l).
Proof.
  intros Hn Hl. unfold np_mean, fnonneg. rewrite FloatAxioms.div_spec.
  pose proof (float_of_nat_fin _ Hn) as Hf.
  destruct (Prim2SF (float_of_nat (length l))) as [| | | [] m e]; try contradiction.
  apply div_nonneg, np_sum_nonneg, Hl.
Qed.

Lemma coerce_not_nan (o : option cell) : Prim2SF (coerce o) <> S754_nan.
Proof.
  unfold coerce. destruct o as [[] |]; try discriminate.
  destruct (is_nan f) eqn:E; [discriminate |].
  intros Hf. unfold is_nan in E. rewrite FloatAxioms.eqb_spec, Hf in E. discriminate.
Qed.

Lemma EPS_pos : pos_sf (Prim2SF EPS).
Proof. vm_compute. exact I. Qed.

Lemma rms_of_pos (arr : list float) :
  (1 <= Z.of_nat (length arr) < 2 ^ 63)%Z ->
  Forall (fun v => Prim2SF v <> S754_nan) arr ->
  (0 <? rms_of arr) = true.
Proof.
  intros Hn Hv. unfold rms_of.
  assert (Hm : fnonneg (np_mean (map (fun v => v * v) arr))).
  { apply np_mean_nonneg; [rewrite length_map; exact Hn |].
    apply Forall_map. eapply Forall_impl; [| exact Hv].
    intros v Hnv. unfold fnonneg. rewrite FloatAxioms.mul_spec. apply mul_self_nonneg, Hnv. }
  assert (Hs : pos_sf (Prim2SF (sqrt (np_mean (map (fun v => v * v) arr) + EPS)))).
  { rewrite FloatAxioms.sqrt_spec. apply sqrt_pos; [| apply Prim2SF_valid].
    rewrite FloatAxioms.add_spec. apply add_pos; [exact Hm | exact EPS_pos | apply Prim2SF_valid ..]. }
  rewrite FloatAxioms.ltb_spec.
  destruct (Prim2SF (sqrt _)) as [[] | [] | | [] m e]; try contradiction; reflexivity.
Qed.

Lemma coerce_column_map (rs : list reading) (c : string) (col : list float) :
  coerce_column rs c = Ok col ->
  exists k, col = map (fun r => coerce (dict_get r k)) rs.
Proof.
  unfold coerce_column.
  destruct (filter _ _) as [| k [| k' ks]]; intros H; try discriminate.
  exists k. congruence.
Qed.

Lemma crest_entry (prefix : string) (series : list float) :
  dict_get (axis_stats prefix series) ("crest_" ++ prefix)%string =
    Some (PyFloat (if 0 <? rms_of series
                   then py_max (abs (series_max series)) (abs (series_min series)) /
                        rms_of series
                   else 0)).
Proof.
  unfold axis_stats. cbv zeta. cbn [dict_get].
  rewrite !String.eqb_refl. reflexivity.
Qed.

(** C10: for every batch and every axis, [rms = sqrt(mean(arr * arr) + EPS)]
    is strictly positive. The axis column is the one [coerce_column] builds
    from the readings (NaN filled with [0.0], so no element is NaN); the
    batch is non-empty, as [process_batch] requires, and shorter than [2^63]
    (a Python list has at most [sys.maxsize] elements). The squares are [+0],
    positive or [+inf], NumPy's pairwise sum and the division by the finite
    count keep that, adding [EPS > 0] makes it positive and [sqrt] keeps it
    positive ([+inf] included). So [rms > 0] holds and the crest factor of
    [_compute_statistical] is always the division by [rms], never the
    fallback [0.0]. *)
Theorem rms_strictly_positive (rs : list reading) (c : string) (col : list float)
    (prefix : string) :
  coerce_column rs c = Ok col ->
  rs <> [] ->
  (Z.of_nat (length rs) < 2 ^ 63)%Z ->
  (0 <? rms_of col) = true /\
  dict_get (axis_stats prefix col) ("crest_" ++ prefix)%string =
    Some (PyFloat (py_max (abs (series_max col)) (abs (series_min col)) / rms_of col)).
Proof.
  intros Hc Hne Hlen.
  destruct (coerce_column_map rs c col Hc) as [k ->].
  assert (Hpos : (0 <? rms_of (map (fun r => coerce (dict_get r k)) rs)) = true).
  { apply rms_of_pos.
    - rewrite length_map. destruct rs; [congruence |]. cbn [length] in *. split; [lia | exact Hlen].
    - apply Forall_map, Forall_forall. intros r _. apply coerce_not_nan. }
  split; [exact Hpos |].
  rewrite crest_entry, Hpos. reflexivity.
Qed.

Lemma rms_strictly_positive_witness :
  (0 <? rms_of [2%float]) = true /\
  dict_get (axis_stats "X" [2%float]) "crest_X" =
    Some (PyFloat (py_max (abs (series_max [2%float])) (abs (series_min [2%float])) /
                   rms_of [2%float])).
Proof.
  apply (rms_strictly_positive [[("x", Num 2)]] "x" [2%float] "X").
  - vm_compute. reflexivity.
  - discriminate.
  - vm_compute. reflexivity.
Defined.

End RmsFacts.

(* ------------------------------------------------------------------ *)
(** ** The accelerometer driver *)

Section DriverFacts.
Import Adxl345 FloatValue.
Local Open Scope Z_scope.

Lemma all_from_spec (f : Z -> bool) (lo : Z) (n : nat) :
  all_from f lo n = true -> forall v, lo <= v < lo + Z.of_nat n -> f v = true.
Proof.
  revert lo. induction n as [| n IH]; intros lo H v Hv; [lia |].
  cbn [all_from] in H. apply andb_prop in H as [H1 H2].
  destruct (Z.eq_dec v lo) as [-> | Hne]; [exact H1 |].
  apply (IH (lo + 1) H2). lia.
Qed.

Lemma int_from_bytes_pair (lo hi : Z) :
  0 <= lo < 256 -> 0 <= hi < 256 ->
  int_from_bytes_le_signed [lo; hi] =
    Some (if hi <? 128 then lo + 256 * hi else lo + 256 * hi - 65536).
Proof.
  intros Hlo Hhi. unfold int_from_bytes_le_signed.
  cbn [forallb].
  rewrite (proj2 (Z.leb_le 0 lo) ltac:(lia)), (proj2 (Z.ltb_lt lo 256) ltac:(lia)),
    (proj2 (Z.leb_le 0 hi) ltac:(lia)), (proj2 (Z.ltb_lt hi 256) ltac:(lia)).
  cbn [andb fold_right length]. change (8 * Z.of_nat 2) with 16.
  change (2 ^ (16 - 1)) with 32768. change (2 ^ 16) with 65536.
  f_equal. rewrite Z.mul_0_r, Z.add_0_r.
  destruct (Z.ltb_spec hi 128); destruct (Z.leb_spec 32768 (lo + 256 * hi)); lia.
Qed.

(** Raw counts: [int.from_bytes(data[i:i+2], 'little', signed=True)] of two
    bytes is the 16-bit two's complement value [lo + 256 * hi], less [2^16]
    when the sign bit of [hi] is set; it lies in [[-32768, 32767]], every
    value of that range comes from exactly one byte pair, and an item outside
    [0..255] makes the conversion raise. *)
Theorem int_from_bytes_16bit :
  (forall lo hi, 0 <= lo < 256 -> 0 <= hi < 256 ->
     exists v, int_from_bytes_le_signed [lo; hi] = Some v /\
       -32768 <= v <= 32767 /\
       v = (if hi <? 128 then lo + 256 * hi else lo + 256 * hi - 65536)) /\
  (forall v, -32768 <= v <= 32767 ->
     exists lo hi, 0 <= lo < 256 /\ 0 <= hi < 256 /\
       int_from_bytes_le_signed [lo; hi] = Some v /\
       forall lo' hi', 0 <= lo' < 256 -> 0 <= hi' < 256 ->
         int_from_bytes_le_signed [lo'; hi'] = Some v -> lo' = lo /\ hi' = hi) /\
  (forall bs, existsb (fun b => (b <? 0) || (256 <=? b)) bs = true ->
     int_from_bytes_le_signed bs = None).
Proof.
  split; [| split].
  - intros lo hi Hlo Hhi. rewrite int_from_bytes_pair by assumption.
    eexists. split; [reflexivity |]. split; [| reflexivity].
    destruct (Z.ltb_spec hi 128); lia.
  - intros v Hv. exists (v mod 256), ((v / 256) mod 256).
    assert (Hl : 0 <= v mod 256 < 256) by (apply Z.mod_pos_bound; lia).
    assert (Hh : 0 <= (v / 256) mod 256 < 256) by (apply Z.mod_pos_bound; lia).
    split; [exact Hl |]. split; [exact Hh |].
    pose proof (Z.div_mod v 256 ltac:(lia)) as Hv1.
    pose proof (Z.mod_pos_bound v 256 ltac:(lia)) as Hv2.
    pose proof (Z.div_mod (v / 256) 256 ltac:(lia)) as Hv3.
    pose proof (Z.mod_pos_bound (v / 256) 256 ltac:(lia)) as Hv4.
    set (r := v mod 256) in *. set (q := v / 256) in *.
    set (q2 := q mod 256) in *. set (q3 := q / 256) in *.
    split.
    + rewrite int_from_bytes_pair by lia. f_equal.
      destruct (Z.ltb_spec q2 128); lia.
    + intros lo' hi' H1 H2 H. rewrite int_from_bytes_pair in H by assumption.
      match type of H with Some ?a = Some _ => assert (Hv' : a = v) by congruence end.
      clear H.
      destruct (Z.ltb_spec hi' 128); destruct (Z.ltb_spec q2 128); split; lia.
  - intros bs Hb. unfold int_from_bytes_le_signed.
    replace (forallb _ bs) with false; [reflexivity |].
    induction bs as [| b bs IH]; [discriminate |].
    cbn [existsb forallb] in *.
    destruct (Z.ltb_spec b 0); destruct (Z.leb_spec 256 b);
      destruct (Z.leb_spec 0 b); destruct (Z.ltb_spec b 256); simpl in *; try lia;
      try reflexivity; apply IH; exact Hb.
Qed.

Lemma accel_exact_all :
  all_from (fun v => dyadic_eqb (Prim2SF (int_to_float v / SCALE_FACTOR_16G)) v (-5))
    (-32768) (Z.to_nat 65536) = true.
Proof. vm_compute. reflexivity. Qed.

(** [read_acceleration()] on an initialized driver and a block of six bytes
    gives, per axis, the raw count of [read_raw_data] (in [[-32768, 32767]])
    divided by 32 with no rounding: the float is exactly [raw * 2^-5], so the
    values lie in [[-1024, 1023.96875]] g in steps of 1/32 g. *)
Theorem read_acceleration_exact (data : list Z) :
  length data = 6%nat -> Forall (fun b => 0 <= b < 256) data ->
  exists x y z ax ay az,
    read_raw_data true (Some data) = Some (x, y, z) /\
    read_acceleration true (Some data) = Some (ax, ay, az) /\
    -32768 <= x <= 32767 /\ -32768 <= y <= 32767 /\ -32768 <= z <= 32767 /\
    dyadic_eqb (Prim2SF ax) x (-5) = true /\
    dyadic_eqb (Prim2SF ay) y (-5) = true /\
    dyadic_eqb (Prim2SF az) z (-5) = true.
Proof.
  intros Hl Hb.
  destruct data as [| b0 [| b1 [| b2 [| b3 [| b4 [| b5 [|]]]]]]]; try discriminate.
  repeat match goal with H : Forall _ (_ :: _) |- _ => inversion H; subst; clear H end.
  unfold read_acceleration, read_raw_data. cbn [negb firstn skipn].
  rewrite !int_from_bytes_pair by assumption.
  set (x := if b1 <? 128 then _ else _).
  set (y := if b3 <? 128 then _ else _).
  set (z := if b5 <? 128 then _ else _).
  assert (Hx : -32768 <= x <= 32767) by (unfold x; destruct (Z.ltb_spec b1 128); lia).
  assert (Hy : -32768 <= y <= 32767) by (unfold y; destruct (Z.ltb_spec b3 128); lia).
  assert (Hz : -32768 <= z <= 32767) by (unfold z; destruct (Z.ltb_spec b5 128); lia).
  pose proof (all_from_spec _ _ _ accel_exact_all) as Hall.
  exists x, y, z, (int_to_float x / SCALE_FACTOR_16G)%float,
    (int_to_float y / SCALE_FACTOR_16G)%float, (int_to_float z / SCALE_FACTOR_16G)%float.
  split; [reflexivity |]. split; [reflexivity |].
  repeat split; try lia; apply Hall; rewrite Z2Nat.id; lia.
Qed.

Lemma read_acceleration_exact_witness :
  length [0; 1; 255; 255; 16; 0] = 6%nat /\ Forall (fun b => 0 <= b < 256) [0; 1; 255; 255; 16; 0] /\
  read_acceleration true (Some [0; 1; 255; 255; 16; 0]) = Some (8, -0.03125, 0.5)%float.
Proof.
  split; [reflexivity |]. split; [repeat constructor; lia |].
  destruct (read_acceleration_exact [0; 1; 255; 255; 16; 0] eq_refl
              ltac:(repeat constructor; lia)) as (x & y & z & ax & ay & az & _ & H & _).
  rewrite H. vm_compute in H. congruence.
Defined.
End DriverFacts.

(* ------------------------------------------------------------------ *)
(** ** Sensor initialization and the collection thread *)

Section SensorServiceFacts.
Import SensorService.
Local Open Scope Z_scope.

(** [Sensor.initialize()] configures the device only when [REG_DEVID] reads
    [0xE5]: it then writes [DATA_FORMAT = 0x0B] (full resolution, 16 g),
    [BW_RATE] = the code of [_map_rate] ([0x0A], [0x09], [0x08], [0x07] for
    100, 50, 25, 20 Hz, and [0x07] (20 Hz) for any other rate) and
    [POWER_CTL = 0x08], in this order, and returns [True] when no write
    raised. Any other device id, or a failing read, writes nothing and
    returns [False]. *)
Theorem sensor_initialize_registers (bus : Adxl345.init_bus) (rate : Z) :
  (Adxl345.devid bus <> Some 0xE5 -> initialize bus rate = (false, [])) /\
  (Adxl345.devid bus = Some 0xE5 ->
     (forall r, Adxl345.write_ok bus r = true) ->
     initialize bus rate =
       (true, [(0x31, 0x0B); (0x2C, map_rate rate); (0x2D, 0x08)])) /\
  map_rate rate =
    (if rate =? 100 then 0x0A else if rate =? 50 then 0x09
     else if rate =? 25 then 0x08 else 0x07).
Proof.
  split; [| split].
  - intros Hne. unfold initialize, Adxl345.initialize.
    destruct (Adxl345.devid bus) as [id |]; [| reflexivity].
    destruct (Z.eqb_spec id 0xE5) as [-> | Hid]; [congruence | reflexivity].
  - intros Hid Hw. unfold initialize, Adxl345.initialize. rewrite Hid.
    cbn [Z.eqb negb Adxl345.write_regs]. rewrite !Hw. reflexivity.
  - unfold map_rate, rate_map. cbn [find fst snd].
    rewrite !(Z.eqb_sym _ rate).
    destruct (rate =? 100); [reflexivity |].
    destruct (rate =? 50); [reflexivity |].
    destruct (rate =? 25); [reflexivity |].
    destruct (rate =? 20); reflexivity.
Qed.

Lemma driver_outcome_uninit (block : option (list Z)) :
  driver_outcome false block = Sensor.ReadNone.
Proof. reflexivity. Qed.

Lemma fold_loop_step_none (s : Sensor.sensor_state) (events : list (float * option (list Z))) :
  fold_left (fun s ev => Sensor.loop_step s (fst ev) (driver_outcome false (snd ev))) events s = s.
Proof.
  revert s. induction events as [| ev evs IH]; intros s; [reflexivity |].
  cbn [fold_left]. rewrite driver_outcome_uninit. apply IH.
Qed.

(** When [Sensor.initialize()] returned [False] (the driver's
    [is_initialized] is then [False]), the collection thread never buffers a
    reading, whatever the rate and the bus do: [read_raw_data] raises
    "Sensor not initialized" inside its [try] and returns [None]. The buffer
    stays as it was, so from a new [Sensor] [get_latest_readings] always
    returns [[]] and [get_status] reports [buffer_size = 0]. *)
Theorem failed_initialize_collects_nothing (bus : Adxl345.init_bus) (rate : Z)
    (size : nat) (events : list (float * option (list Z))) (count : Z) (c : sensor_ctl) :
  fst (initialize bus rate) = false ->
  let s := loop_run rate (fst (initialize bus rate)) (Sensor.sensor_init size) events in
  Sensor.buffer s = [] /\ Sensor.get_latest_readings s count = [] /\
  snd (get_status c s) = 0%nat.
Proof.
  intros Hf. cbv zeta. rewrite Hf.
  assert (H : loop_run rate false (Sensor.sensor_init size) events = Sensor.sensor_init size).
  { unfold loop_run. destruct (rate =? 0); [reflexivity |].
    destruct (rate <? 0).
    - destruct events; reflexivity.
    - apply fold_loop_step_none. }
  rewrite H. repeat split.
Qed.

Lemma failed_initialize_collects_nothing_witness :
  let bus := Adxl345.mkInitBus (Some 0) (fun _ => true) in
  fst (initialize bus 20) = false /\
  Sensor.buffer (loop_run 20 (fst (initialize bus 20)) (Sensor.sensor_init 1000)
    [(1%float, Some [0; 1; 0; 0; 0; 0]%Z)]) = [].
Proof.
  cbv zeta. split; [reflexivity |].
  apply (failed_initialize_collects_nothing (Adxl345.mkInitBus (Some 0) (fun _ => true))
           20 1000 [(1%float, Some [0; 1; 0; 0; 0; 0]%Z)] 1 ctl_init). reflexivity.
Defined.

(** [Sensor(sampling_rate_hz=rate)] with [rate <= 0]: [start_collection()]
    still returns [True] and [get_status] reports [running], but the thread
    stores no reading for [rate = 0] ([1.0 / float(0)] raises) and at most
    one for [rate < 0] ([time.sleep] of a negative interval raises after the
    first pass). A positive rate keeps every successful read. *)
Theorem nonpositive_rate_collects_at_most_one (rate : Z) (is_init : bool) (size : nat)
    (events : list (float * option (list Z))) :
  rate <= 0 ->
  fst (start_collection ctl_init) = true /\
  fst (get_status (snd (start_collection ctl_init))
         (loop_run rate is_init (Sensor.sensor_init size) events)) = true /\
  (length (Sensor.buffer (loop_run rate is_init (Sensor.sensor_init size) events))
     <= (if Z.eqb rate 0%Z then 0 else 1))%nat.
Proof.
  intros Hr. split; [reflexivity |]. split; [reflexivity |].
  unfold loop_run. destruct (Z.eqb_spec rate 0) as [-> | Hne]; [simpl; lia |].
  replace (rate <? 0) with true by (symmetry; apply Z.ltb_lt; lia).
  destruct events as [| [now block] evs]; [simpl; lia |].
  cbn [fst snd]. unfold Sensor.loop_step.
  destruct (driver_outcome is_init block) as [ax ay az | |]; cbn [Sensor.buffer Sensor.sensor_init];
    [| simpl; lia | simpl; lia].
  unfold Sensor.deque_append. cbn [app].
  simpl. destruct (Nat.ltb size 1); simpl; lia.
Qed.

Lemma nonpositive_rate_collects_at_most_one_witness :
  (length (Sensor.buffer (loop_run (-1) true (Sensor.sensor_init 1000)
     [(1%float, Some [0; 1; 0; 0; 0; 0]%Z); (2%float, Some [0; 1; 0; 0; 0; 0]%Z)])) <= 1)%nat.
Proof.
  apply (nonpositive_rate_collects_at_most_one (-1) true 1000
           [(1%float, Some [0; 1; 0; 0; 0; 0]%Z); (2%float, Some [0; 1; 0; 0; 0; 0]%Z)]).
  lia.
Defined.

(** [start_collection()] is guarded by [_running]: from any state, a first
    call returns [True] exactly when collection was not running and then
    starts one thread; a second call returns [False] and changes nothing;
    after [shutdown()] a call returns [True] and starts a thread again. *)
Theorem start_collection_guarded (c : sensor_ctl) :
  let '(ok1, c1) := start_collection c in
  let '(ok2, c2) := start_collection c1 in
  ok1 = negb (running c) /\ running c1 = true /\
  loop_threads c1 = (if running c then loop_threads c else S (loop_threads c)) /\
  ok2 = false /\ c2 = c1 /\
  fst (start_collection (shutdown c1)) = true /\
  loop_threads (snd (start_collection (shutdown c1))) = S (loop_threads c1).
Proof.
  destruct c as [[] n]; cbn; repeat split.
Qed.

(** [Sensor(buffer_size=0)]: [deque(maxlen=0)] discards every append, so the
    buffer stays empty whatever the thread reads, [get_latest_readings]
    returns [[]] for every count and [get_status] reports [0]. *)
Theorem zero_buffer_size_keeps_nothing (rate : Z) (is_init : bool)
    (events : list (float * option (list Z))) (count : Z) (c : sensor_ctl) :
  let s := loop_run rate is_init (Sensor.sensor_init 0) events in
  Sensor.buffer s = [] /\ Sensor.get_latest_readings s count = [] /\
  snd (get_status c s) = 0%nat.
Proof.
  cbv zeta.
  assert (Hstep : forall s ev, Sensor.buffer s = [] -> Sensor.buffer_size s = 0%nat ->
    Sensor.buffer (Sensor.loop_step s (fst ev) (driver_outcome is_init (snd ev))) = [] /\
    Sensor.buffer_size (Sensor.loop_step s (fst ev) (driver_outcome is_init (snd ev))) = 0%nat).
  { intros [sz b] ev Hb Hs. cbn in Hb, Hs. subst.
    unfold Sensor.loop_step. destruct (driver_outcome _ _); split; reflexivity. }
  assert (H : Sensor.buffer (loop_run rate is_init (Sensor.sensor_init 0) events) = []).
  { unfold loop_run. destruct (rate =? 0); [reflexivity |].
    destruct (rate <? 0).
    - destruct events as [| ev evs]; [reflexivity |]. apply Hstep; reflexivity.
    - assert (Hgen : forall s, Sensor.buffer s = [] -> Sensor.buffer_size s = 0%nat ->
        Sensor.buffer (fold_left (fun s ev => Sensor.loop_step s (fst ev)
                          (driver_outcome is_init (snd ev))) events s) = []).
      { induction events as [| ev evs IH]; intros s Hb Hs; [exact Hb |].
        cbn [fold_left]. destruct (Hstep s ev Hb Hs). apply IH; assumption. }
      apply Hgen; reflexivity. }
  split; [exact H |]. split.
  - unfold Sensor.get_latest_readings. rewrite H. reflexivity.
  - unfold get_status. cbn [snd]. rewrite H. reflexivity.
Qed.

End SensorServiceFacts.

(* ------------------------------------------------------------------ *)
(** ** Reading the sensor buffer *)

Section SensorReadFacts.
Import Sensor.

(** [get_latest_readings(count)] with a negative [count] slices
    [list(buffer)[-count:]] from a positive index: it drops the [-count]
    oldest readings and returns the rest, oldest first ([[]] when [-count]
    is at least the buffer length). *)
Theorem get_latest_readings_negative (s : sensor_state) (count : Z) :
  (count < 0)%Z ->
  get_latest_readings s count = map to_dict (skipn (Z.to_nat (- count)) (buffer s)).
Proof.
  intros Hc. unfold get_latest_readings, py_slice_from.
  destruct (buffer s) as [| r rest] eqn:Hb; [destruct (Z.to_nat (- count)); reflexivity |].
  replace (Z.ltb (- count) 0) with false by (symmetry; apply Z.ltb_ge; lia).
  f_equal.
  destruct (Z.le_gt_cases (- count) (Z.of_nat (length (r :: rest)))) as [Hle | Hgt].
  - rewrite Z.min_l by exact Hle. reflexivity.
  - rewrite Z.min_r by lia. rewrite Nat2Z.id.
    rewrite !skipn_all2; [reflexivity | | reflexivity]. lia.
Qed.

Lemma get_latest_readings_negative_witness :
  let s := mkSensor 1000 [mkReading 1 0 0 0; mkReading 2 0 0 0; mkReading 3 0 0 0] in
  get_latest_readings s (-1) = map to_dict [mkReading 2 0 0 0; mkReading 3 0 0 0].
Proof.
  cbv zeta. rewrite (get_latest_readings_negative
    (mkSensor 1000 [mkReading 1 0 0 0; mkReading 2 0 0 0; mkReading 3 0 0 0]) (-1)) by lia.
  reflexivity.
Defined.

End SensorReadFacts.

(* ------------------------------------------------------------------ *)
(** ** The serial probe *)

Section ProbeFacts.
Import Communication.

Lemma is_space_upper (c : ascii) : is_space_byte (upper_byte c) = is_space_byte c.
Proof. destruct c as [[] [] [] [] [] [] [] []]; reflexivity. Qed.

Lemma lstrip_upper (l l' : bytes) :
  map upper_byte l = map upper_byte l' ->
  map upper_byte (lstrip l) = map upper_byte (lstrip l').
Proof.
  revert l'. induction l as [| c l IH]; intros [| c' l'] H; try discriminate; [reflexivity |].
  cbn [map] in H. injection H as Hc Hl. cbn [lstrip].
  assert (Hs : is_space_byte c = is_space_byte c')
    by (rewrite <- (is_space_upper c), <- (is_space_upper c'), Hc; reflexivity).
  rewrite Hs. destruct (is_space_byte c').
  - apply IH, Hl.
  - cbn [map]. rewrite Hc, Hl. reflexivity.
Qed.

Lemma strip_upper (l l' : bytes) :
  map upper_byte l = map upper_byte l' ->
  upper (strip l) = upper (strip l').
Proof.
  intros H. unfold upper, strip. rewrite !map_rev. f_equal.
  apply lstrip_upper. rewrite !map_rev. f_equal. apply lstrip_upper, H.
Qed.

(** The probe compares the answer without regard to letter case: two answers
    that [bytes.upper()] maps to the same bytes ([b"ok\r\n"], [b"Ok\r\n"],
    [b"OK\r\n"], ...) make an attempt succeed or fail together, because
    [strip()] only removes whitespace, which has no case. *)
Theorem attempt_case_insensitive (b b' : bytes) :
  map upper_byte b = map upper_byte b' ->
  attempt_succeeds (SerialAnswer b) = attempt_succeeds (SerialAnswer b').
Proof.
  intros H. unfold attempt_succeeds.
  rewrite (strip_upper (firstn 4 b) (firstn 4 b')); [reflexivity |].
  rewrite <- !firstn_map, H; reflexivity.
Qed.

Lemma attempt_case_insensitive_witness :
  attempt_succeeds (SerialAnswer ["o"; "k"; "013"; "010"]%char) =
  attempt_succeeds (SerialAnswer ["O"; "K"; "013"; "010"]%char).
Proof. apply attempt_case_insensitive. reflexivity. Defined.

Lemma attempt_echo_fails (rest : bytes) :
  attempt_succeeds (SerialAnswer (MainLoop.AT_PROBE ++ rest)) = false.
Proof.
  destruct rest as [| c rest]; [reflexivity |].
  unfold attempt_succeeds, MainLoop.AT_PROBE. cbn [app firstn].
  destruct c as [[] [] [] [] [] [] [] []]; reflexivity.
Qed.

Lemma send_ack_loop_all_fail (channel : nat -> serial_outcome) :
  (forall i, attempt_succeeds (channel i) = false) ->
  forall r a, send_ack_loop channel r a = (false, seq a r).
Proof.
  intros Hf r. induction r as [| r IH]; intros a; [reflexivity |].
  cbn [send_ack_loop seq]. rewrite Hf, IH. reflexivity.
Qed.

(** [main] writes [b"AT\r"] and [send_ack] keeps only the first four bytes it
    reads: if the port echoes the probe back before its answer, every attempt
    reads [b"AT\r"] and one more byte, which is never [ACK] or [OK] after
    [strip().upper()]. So when every attempt's answer starts with the echo,
    [send_ack] fails after opening the port at every attempt
    [1 .. retry_attempts]. *)
Theorem send_ack_rejects_echo (channel : nat -> serial_outcome) (attempts : Z) :
  (forall i, exists rest, channel i = SerialAnswer (MainLoop.AT_PROBE ++ rest)) ->
  send_ack channel attempts = (false, seq 1 (Z.to_nat attempts)).
Proof.
  intros Hecho. unfold send_ack. apply send_ack_loop_all_fail.
  intros i. destruct (Hecho i) as [rest ->]. apply attempt_echo_fails.
Qed.

Lemma send_ack_rejects_echo_witness :
  send_ack (fun _ => SerialAnswer (MainLoop.AT_PROBE ++ ["O"; "K"; "013"; "010"]%char)) 3
  = (false, [1; 2; 3]%nat).
Proof.
  apply (send_ack_rejects_echo
           (fun _ => SerialAnswer (MainLoop.AT_PROBE ++ ["O"; "K"; "013"; "010"]%char)) 3).
  intros i. exists ["O"; "K"; "013"; "010"]%char. reflexivity.
Defined.

End ProbeFacts.

(* ------------------------------------------------------------------ *)
(** ** The offline queue and the drain loop *)

Section MqttLoopFacts.
Import Transmitter MqttLoop.

(** A publish that does not go out leaves the queue as a [deque(maxlen)]
    append would: evict the oldest when full, then append. *)
Lemma publish_snd (publish_now : string -> bool) (st : lte_state) (p : string) :
  (0 < maxsize (buffer st))%Z ->
  (length (items (buffer st)) <= Z.to_nat (maxsize (buffer st)))%nat ->
  snd (publish publish_now st p) =
  if (connected st && publish_now p)%bool then st
  else set_buffer st (mkQueue (maxsize (buffer st))
         (Sensor.deque_append (Z.to_nat (maxsize (buffer st))) (items (buffer st)) p)).
Proof.
  intros Hm Hl. unfold publish.
  destruct (connected st && publish_now p)%bool; [reflexivity |].
  destruct st as [port con [m its] tls nl dl sf]; simpl in *.
  unfold q_full, q_get_nowait, q_put_nowait, Sensor.deque_append; simpl.
  rewrite (proj2 (Z.ltb_lt 0 m) Hm). simpl.
  rewrite length_app. simpl.
  destruct (Z.leb_spec m (Z.of_nat (length its))) as [Hfull | Hnf]; simpl.
  - destruct its as [| p0 rest]; [simpl in Hfull; lia |].
    cbn [length] in Hfull, Hl |- *.
    unfold q_full. simpl.
    rewrite (proj2 (Z.ltb_lt 0 m) Hm).
    rewrite (proj2 (Z.leb_gt m (Z.of_nat (length rest)))) by lia. simpl.
    destruct (Nat.ltb_spec (Z.to_nat m) (S (length rest + 1))); [reflexivity | lia].
  - unfold q_full. simpl.
    rewrite (proj2 (Z.ltb_lt 0 m) Hm), (proj2 (Z.leb_gt _ _) Hnf). simpl.
    destruct (Nat.ltb_spec (Z.to_nat m) (length its + 1)); [lia | reflexivity].
Qed.

Lemma deque_append_length_le {A : Type} (n : nat) (d : list A) (item : A) :
  (length d <= n)%nat -> (length (Sensor.deque_append n d item) <= n)%nat.
Proof. intros Hd. rewrite deque_append_lastn by exact Hd. rewrite lastn_length. lia. Qed.

(** Every event keeps the queue's [maxsize] and keeps [qsize() <= maxsize]. *)
Lemma run_queue_inv (publish_now : string -> bool) (evs : list event) :
  forall st m, (0 < m)%Z -> maxsize (buffer st) = m ->
  (length (items (buffer st)) <= Z.to_nat m)%nat ->
  maxsize (buffer (fst (run publish_now st evs))) = m /\
  (length (items (buffer (fst (run publish_now st evs)))) <= Z.to_nat m)%nat.
Proof.
  induction evs as [| e evs IH]; intros st m Hm Hmx Hl; [split; assumption |].
  destruct e as [p | | rc |]; cbn [run].
  - destruct (run publish_now (snd (publish publish_now st p)) evs) as [st' out] eqn:E.
    cbn [fst]. replace st' with (fst (run publish_now (snd (publish publish_now st p)) evs))
      by (rewrite E; reflexivity).
    subst m. rewrite publish_snd by (assumption || lia).
    destruct (connected st && publish_now p)%bool.
    + apply IH; auto.
    + apply IH; simpl; auto. apply deque_append_length_le. exact Hl.
  - unfold drain_pass.
    destruct (connected st && negb (q_empty (buffer st)))%bool.
    + unfold q_get_nowait. destruct (items (buffer st)) as [| p0 rest] eqn:Ei.
      * destruct (run publish_now st evs) as [st' out] eqn:E. cbn [fst].
        replace st' with (fst (run publish_now st evs)) by (rewrite E; reflexivity).
        apply IH; [assumption | assumption | rewrite Ei; simpl; lia].
      * destruct (run publish_now (set_buffer st (mkQueue (maxsize (buffer st)) rest)) evs)
          as [st' out] eqn:E. cbn [fst].
        replace st' with
          (fst (run publish_now (set_buffer st (mkQueue (maxsize (buffer st)) rest)) evs))
          by (rewrite E; reflexivity).
        apply IH; simpl; auto. simpl in Hl. lia.
    + destruct (run publish_now st evs) as [st' out] eqn:E. cbn [fst].
      replace st' with (fst (run publish_now st evs)) by (rewrite E; reflexivity).
      apply IH; assumption.
  - apply IH; assumption.
  - apply IH; assumption.
Qed.

(** The offline queue stays bounded: from a queue with [maxsize >= 1] holding
    at most [maxsize] payloads, after any interleaving of [publish] calls
    (whatever [_publish_now] answers), drain passes, connects and disconnects,
    [get_buffer_status()] still reports the same [max_buffer_size] and a
    [buffer_size] of at most that. *)
Theorem queue_stays_bounded (publish_now : string -> bool) (st : lte_state)
    (evs : list event) :
  (0 < snd (get_buffer_status st))%Z ->
  (fst (get_buffer_status st) <= snd (get_buffer_status st))%Z ->
  snd (get_buffer_status (fst (run publish_now st evs))) = snd (get_buffer_status st) /\
  (fst (get_buffer_status (fst (run publish_now st evs))) <= snd (get_buffer_status st))%Z.
Proof.
  unfold get_buffer_status. cbn [fst snd]. intros Hm Hl.
  destruct (run_queue_inv publish_now evs st (maxsize (buffer st)) Hm eq_refl)
    as [Hmx Hl']; [lia |].
  split; [exact Hmx | lia].
Qed.

Lemma queue_stays_bounded_witness :
  let st := lte_init 1883 2 in
  let evs := [EvPublish "a"; EvPublish "b"; EvPublish "c"; EvConnect 0; EvDrain] in
  snd (get_buffer_status (fst (run (fun _ => false) st evs))) = 2%Z /\
  (fst (get_buffer_status (fst (run (fun _ => false) st evs))) <= 2)%Z.
Proof.
  apply (queue_stays_bounded (fun _ => false) (lte_init 1883 2)
           [EvPublish "a"; EvPublish "b"; EvPublish "c"; EvConnect 0; EvDrain]);
    vm_compute; congruence.
Defined.

Lemma run_app (publish_now : string -> bool) (e1 e2 : list event) :
  forall st, run publish_now st (e1 ++ e2) =
    let '(s1, o1) := run publish_now st e1 in
    let '(s2, o2) := run publish_now s1 e2 in (s2, o1 ++ o2).
Proof.
  induction e1 as [| e e1 IH]; intros st; cbn [app run].
  - destruct (run publish_now st e2); reflexivity.
  - destruct e as [p | | rc |].
    + rewrite IH. destruct (run publish_now (snd (publish publish_now st p)) e1) as [s1 o1].
      destruct (run publish_now s1 e2) as [s2 o2]. rewrite app_assoc. reflexivity.
    + destruct (drain_pass st) as [st1 h]. rewrite IH.
      destruct (run publish_now st1 e1) as [s1 o1].
      destruct (run publish_now s1 e2) as [s2 o2]. destruct h; reflexivity.
    + apply IH.
    + apply IH.
Qed.

(** While disconnected, [publish] hands nothing to [_publish_now] and the
    queue evolves as a [deque(maxlen=maxsize)]. *)
Lemma run_offline_publishes (publish_now : string -> bool) (ps : list string) :
  forall st, connected st = false -> (0 < maxsize (buffer st))%Z ->
  (length (items (buffer st)) <= Z.to_nat (maxsize (buffer st)))%nat ->
  run publish_now st (map EvPublish ps) =
  (set_buffer st (mkQueue (maxsize (buffer st))
     (Sensor.push_all (Z.to_nat (maxsize (buffer st))) (items (buffer st)) ps)), []).
Proof.
  induction ps as [| p ps IH]; intros st Hc Hm Hl.
  - destruct st as [port con [m its] tls nl dl sf]; reflexivity.
  - cbn [map run]. rewrite Hc. rewrite publish_snd by assumption. rewrite Hc. simpl.
    rewrite IH; simpl; auto.
    apply deque_append_length_le. exact Hl.
Qed.

(** While connected, [k] drain passes with [k >= qsize()] hand the whole
    queue to [_publish_now], oldest first, and leave it empty. *)
Lemma run_drains (publish_now : string -> bool) (k : nat) :
  forall st, connected st = true -> (length (items (buffer st)) <= k)%nat ->
  snd (run publish_now st (repeat EvDrain k)) = items (buffer st) /\
  items (buffer (fst (run publish_now st (repeat EvDrain k)))) = [] /\
  connected (fst (run publish_now st (repeat EvDrain k))) = true.
Proof.
  induction k as [| k IH]; intros st Hc Hl.
  - destruct (items (buffer st)) eqn:E; [| simpl in Hl; lia].
    simpl. rewrite E. auto.
  - cbn [repeat run]. unfold drain_pass, q_empty, q_get_nowait. rewrite Hc.
    destruct (items (buffer st)) as [| p rest] eqn:E; simpl.
    + destruct (IH st Hc) as (H1 & H2 & H3); [rewrite E; simpl; lia |].
      destruct (run publish_now st (repeat EvDrain k)) as [s o]. simpl in *.
      rewrite E in H1. auto.
    + destruct (IH (set_buffer st (mkQueue (maxsize (buffer st)) rest)))
        as (H1 & H2 & H3); [exact Hc | simpl in Hl |- *; lia |].
      destruct (run publish_now (set_buffer st (mkQueue (maxsize (buffer st)) rest))
                  (repeat EvDrain k)) as [s o].
      simpl in *. rewrite H1. auto.
Qed.

(** Payloads published while disconnected are delivered in order once the
    client reconnects: from an empty queue with [maxsize = M >= 1], after
    [publish] calls for [ps] while disconnected, [on_connect] with [rc = 0] and
    [M] passes of the drain loop, the payloads handed to [_publish_now] are
    the last [M] of [ps] (older ones were evicted), oldest first. The queue is
    then empty whatever [_publish_now] answered: a payload whose send fails in
    the drain loop is not put back. *)
Theorem offline_payloads_delivered_after_reconnect (publish_now : string -> bool)
    (st : lte_state) (ps : list string) :
  connected st = false -> items (buffer st) = [] -> (0 < maxsize (buffer st))%Z ->
  let res := run publish_now st
    (map EvPublish ps ++ EvConnect 0 :: repeat EvDrain (Z.to_nat (maxsize (buffer st)))) in
  snd res = Sensor.lastn (Z.to_nat (maxsize (buffer st))) ps /\
  items (buffer (fst res)) = [] /\
  connected (fst res) = true.
Proof.
  intros Hc He Hm. cbv zeta. rewrite run_app.
  rewrite run_offline_publishes by (try rewrite He; simpl; auto; lia).
  cbn [run]. rewrite He, push_all_lastn.
  set (st1 := on_connect 0 _).
  destruct (run_drains publish_now (Z.to_nat (maxsize (buffer st))) st1)
    as (H1 & H2 & H3); [reflexivity | subst st1; simpl; rewrite lastn_length; lia |].
  destruct (run publish_now st1 (repeat EvDrain (Z.to_nat (maxsize (buffer st)))))
    as [s o]. simpl in *. rewrite H1. subst st1. simpl. auto.
Qed.

Lemma offline_payloads_delivered_after_reconnect_witness :
  let st := lte_init 1883 2 in
  let res := run (fun _ => false) st
    (map EvPublish ["a"; "b"; "c"] ++ EvConnect 0 :: repeat EvDrain (Z.to_nat 2)) in
  snd res = ["b"; "c"] /\ items (buffer (fst res)) = [] /\ connected (fst res) = true.
Proof.
  apply (offline_payloads_delivered_after_reconnect (fun _ => false)
           (lte_init 1883 2) ["a"; "b"; "c"]); reflexivity.
Defined.

End MqttLoopFacts.

(* ------------------------------------------------------------------ *)
(** ** Column labels of the frame *)

Section ProcessorFacts.
Import Processor.

Lemma add_labels_keep (k : string) (l acc : list string) :
  In k acc -> In k (fold_left add_label l acc).
Proof.
  revert acc. induction l as [| a l IH]; intros acc Hk; [exact Hk |].
  simpl. apply IH. unfold add_label.
  destruct (existsb (String.eqb a) acc); [exact Hk | apply in_or_app; left; exact Hk].
Qed.

Lemma add_labels_new (k : string) (l acc : list string) :
  In k l -> In k (fold_left add_label l acc).
Proof.
  revert acc. induction l as [| a l IH]; intros acc Hk; [destruct Hk |].
  simpl. destruct Hk as [-> | Hk]; [| apply IH; exact Hk].
  apply add_labels_keep. unfold add_label.
  destruct (existsb (String.eqb k) acc) eqn:E.
  - apply existsb_exists in E. destruct E as [y [Hy Hyk]].
    apply String.eqb_eq in Hyk. subst y. exact Hy.
  - apply in_or_app. right. left. reflexivity.
Qed.

Lemma fold_readings_keep (k : string) (rs : list reading) (acc : list string) :
  In k acc ->
  In k (fold_left (fun acc (r : reading) => fold_left add_label (map fst r) acc) rs acc).
Proof.
  revert acc. induction rs as [| r rs IH]; intros acc Hk; [exact Hk |].
  simpl. apply IH, add_labels_keep, Hk.
Qed.

(** Every key of every reading is a column label of the frame. *)
Lemma frame_labels_In (rs : list reading) (r : reading) (k : string) :
  In r rs -> In k (map fst r) -> In k (frame_labels rs).
Proof.
  unfold frame_labels. generalize (@nil string) as acc.
  induction rs as [| r0 rs IH]; intros acc Hr Hk; [destruct Hr |].
  simpl. destruct Hr as [-> | Hr]; [| apply IH; assumption].
  apply fold_readings_keep, add_labels_new, Hk.
Qed.

(** [df.rename] maps both [x] and [x_axis] to [x]: when one reading of a
    batch has the key [x] and another (or the same) has [x_axis], the frame
    gets two columns labelled [x], [df["x"]] is a DataFrame and
    [pd.to_numeric] raises [TypeError], so [process_batch] raises. *)
Theorem process_batch_x_and_x_axis
    (compute_frequency : list float -> list float -> list float -> float -> list (string * float))
    (rs : list reading) (rate : float) (r1 r2 : reading) :
  In r1 rs -> In "x" (map fst r1) -> In r2 rs -> In "x_axis" (map fst r2) ->
  process_batch compute_frequency rs rate = Err TypeError.
Proof.
  intros H1 Hx1 H2 Hx2.
  assert (Hx : In "x" (filter (fun k => String.eqb (rename_label k) "x") (frame_labels rs)))
    by (apply filter_In; split; [apply (frame_labels_In rs r1); assumption | reflexivity]).
  assert (Hxa : In "x_axis" (filter (fun k => String.eqb (rename_label k) "x") (frame_labels rs)))
    by (apply filter_In; split; [apply (frame_labels_In rs r2); assumption | reflexivity]).
  unfold process_batch, coerce_column at 1.
  destruct rs as [| r rest]; [destruct H1 |].
  revert Hx Hxa.
  destruct (filter (fun k => String.eqb (rename_label k) "x") (frame_labels (r :: rest)))
    as [| k [| k' more]]; intros Hx Hxa.
  - destruct Hx.
  - destruct Hx as [Hx | []]. destruct Hxa as [Hxa | []]. congruence.
  - reflexivity.
Qed.

Lemma process_batch_x_and_x_axis_witness :
  let rs := [[("timestamp", Num 0); ("x", Num 1)]; [("timestamp", Num 1); ("x_axis", Num 2)]]%float in
  process_batch (fun _ _ _ _ => []) rs 20%float = Err TypeError.
Proof.
  apply (process_batch_x_and_x_axis (fun _ _ _ _ => [])
           [[("timestamp", Num 0); ("x", Num 1)]; [("timestamp", Num 1); ("x_axis", Num 2)]]%float
           20%float [("timestamp", Num 0); ("x", Num 1)]%float
           [("timestamp", Num 1); ("x_axis", Num 2)]%float); simpl; auto.
Defined.

End ProcessorFacts.

(* ------------------------------------------------------------------ *)
(** ** The main loop *)

Section MainLoopFacts.
Import Processor MainLoop.







Lemma publish_offline_fst (publish_now : string -> bool) (st : Transmitter.lte_state)
    (p : string) :
  Transmitter.connected st = false -> fst (Transmitter.publish publish_now st p) = false.
Proof.
  intros Hc. unfold Transmitter.publish. rewrite Hc. cbn [andb].
  destruct (Transmitter.q_put_nowait _ _); reflexivity.
Qed.


(** The sending part of a pass. When the serial probe fails at every attempt,
    [lte.publish] is not called and the transmitter is left as it was: the
    batch is dropped, not queued for later. When the probe succeeds while the
    transmitter is disconnected, [publish] returns [False] and the
    [format_csv] payload joins the offline queue, evicting the oldest queued
    payload when the queue is full. *)
Theorem main_transmit_after_probe (channel : nat -> Communication.serial_outcome)
    (attempts : Z) (publish_now : string -> bool) (st : Transmitter.lte_state)
    (feats : features) :
  feats <> [] ->
  ((forall i, Communication.attempt_succeeds (channel i) = false) ->
   main_transmit (fst (Communication.send_ack channel attempts)) publish_now st feats
   = (None, st)) /\
  (fst (Communication.send_ack channel attempts) = true ->
   Transmitter.connected st = false ->
   (0 < Transmitter.maxsize (Transmitter.buffer st))%Z ->
   (length (Transmitter.items (Transmitter.buffer st))
      <= Z.to_nat (Transmitter.maxsize (Transmitter.buffer st)))%nat ->
   main_transmit (fst (Communication.send_ack channel attempts)) publish_now st feats
   = (Some false,
      Transmitter.set_buffer st
        (Transmitter.mkQueue (Transmitter.maxsize (Transmitter.buffer st))
           (Sensor.deque_append (Z.to_nat (Transmitter.maxsize (Transmitter.buffer st)))
              (Transmitter.items (Transmitter.buffer st)) (format_csv feats))))).
Proof.
  intros Hf. split.
  - intros Hall. unfold Communication.send_ack.
    rewrite (send_ack_loop_all_fail channel Hall). cbn [fst].
    destruct feats; [congruence | reflexivity].
  - intros Hack Hc Hm Hl. rewrite Hack. unfold main_transmit.
    destruct feats as [| kv feats']; [congruence |].
    pose proof (publish_snd publish_now st (format_csv (kv :: feats')) Hm Hl) as Hs.
    pose proof (publish_offline_fst publish_now st (format_csv (kv :: feats')) Hc) as Hb.
    rewrite Hc in Hs. cbn [andb] in Hs.
    destruct (Transmitter.publish publish_now st (format_csv (kv :: feats'))) as [ok st'].
    cbn [fst snd] in Hs, Hb. subst ok st'. reflexivity.
Qed.

Lemma main_transmit_after_probe_witness :
  main_transmit (fst (Communication.send_ack (fun _ => Communication.SerialRaised) 3))
    (fun _ => true) (Transmitter.lte_init 8883 1000) [("mean_X", PyFloat 1)]%float
  = (None, Transmitter.lte_init 8883 1000).
Proof.
  apply (proj1 (main_transmit_after_probe (fun _ => Communication.SerialRaised) 3
                  (fun _ => true) (Transmitter.lte_init 8883 1000)
                  [("mean_X", PyFloat 1)]%float ltac:(discriminate))).
  intros i. reflexivity.
Defined.
End MainLoopFacts.
